(** * Visual-Logic: the flowchart pipeline of [app.py]

    The application is one Streamlit script.  Its logic is the handler of the
    "Generate Diagram" button: guard on the pasted code, two completion
    calls, isolation of a JSON candidate between the first opening and the
    last closing brace, [json.loads], a check for the [nodes] and [edges]
    keys, and a loop over nodes and edges that picks shapes and colours from
    keywords of the labels before handing a [graphviz.Digraph] to the page.

    Python strings are sequences of code points, so [str] is [list N].
    Library functions whose tables are not part of the repository
    ([str.lower], the conversion of an f-string field) are taken through the
    class [Runtime]; the [json] decoder and encoder are modelled in
    [Module Json], the decoder with the two limits of the interpreter
    (nesting of containers, digits of an integer literal) in the class
    [Limits].  An element of the page encodes the text it is given and
    raises on a surrogate code point. *)

From Stdlib Require Import Ascii String List NArith ZArith Bool Lia.
Import ListNotations.

Set Implicit Arguments.
Set Warnings "-register-all".

(** ** Python strings *)

Module Py.

Definition char := N.
Definition str := list char.

(** An ASCII literal as a Python string. *)
Definition py (s : string) : str := map N_of_ascii (list_ascii_of_string s).
Arguments py s%_string.

(** The same with every apostrophe read as a double quote, for literals that
    hold JSON text. *)
Definition pyq (s : string) : str :=
  map (fun c => if (c =? 39)%N then 34%N else c) (py s).
Arguments pyq s%_string.

Definition str_eqb (a b : str) : bool :=
  if list_eq_dec N.eq_dec a b then true else false.

(** [s.startswith(p)] *)
Fixpoint startswith (p s : str) : bool :=
  match p, s with
  | [], _ => true
  | _ :: _, [] => false
  | a :: p', b :: s' => (a =? b)%N && startswith p' s'
  end.

(** [needle in hay] for two strings: some suffix of [hay] starts with
    [needle]. *)
Fixpoint contains (needle hay : str) : bool :=
  startswith needle hay ||
  match hay with
  | [] => false
  | _ :: t => contains needle t
  end.

(** [s.find(c)] for a one-character needle: lowest index, [-1] if absent. *)
Fixpoint find_from (c : char) (s : str) (i : Z) : Z :=
  match s with
  | [] => (-1)%Z
  | x :: t => if (x =? c)%N then i else find_from c t (i + 1)%Z
  end.

Definition find (c : char) (s : str) : Z := find_from c s 0%Z.

(** [s.rfind(c)]: highest index, [-1] if absent. *)
Fixpoint rfind_from (c : char) (s : str) (i last : Z) : Z :=
  match s with
  | [] => last
  | x :: t => rfind_from c t (i + 1)%Z (if (x =? c)%N then i else last)
  end.

Definition rfind (c : char) (s : str) : Z := rfind_from c s 0%Z (-1)%Z.

(** Slice bounds: a negative index counts from the end, and every index is
    clamped to [0 .. len]. *)
Definition clamp (len i : Z) : Z :=
  if (i <? 0)%Z then Z.max 0 (len + i) else Z.min i len.

(** [s[a:b]] *)
Definition slice (s : str) (a b : Z) : str :=
  let len := Z.of_nat (length s) in
  let a' := clamp len a in
  let b' := clamp len b in
  firstn (Z.to_nat (b' - a')) (skipn (Z.to_nat a') s).

(** [c.isspace()]: the code points CPython's [_PyUnicode_IsWhitespace]
    accepts. *)
Definition isspace (c : char) : bool :=
  ((9 <=? c) && (c <=? 13) || (28 <=? c) && (c <=? 32)
   || (c =? 133) || (c =? 160) || (c =? 5760)
   || (8192 <=? c) && (c <=? 8202)
   || (c =? 8232) || (c =? 8233) || (c =? 8239) || (c =? 8287)
   || (c =? 12288))%N.

Fixpoint lstrip (s : str) : str :=
  match s with
  | [] => []
  | c :: t => if isspace c then lstrip t else s
  end.

Definition rstrip (s : str) : str := rev (lstrip (rev s)).

(** [s.strip()] *)
Definition strip (s : str) : str := rstrip (lstrip s).

(** Truth value of a string in a condition: non-empty. *)
Definition truthy (s : str) : bool :=
  match s with [] => false | _ :: _ => true end.

(** Lower-casing restricted to ASCII letters. *)
Definition ascii_lower (c : char) : char :=
  if ((65 <=? c) && (c <=? 90))%N then (c + 32)%N else c.

Definition is_ascii (s : str) : bool := forallb (fun c => (c <? 128)%N) s.

(** A surrogate code point.  A Python string may hold one; UTF-8 has no
    encoding for it. *)
Definition is_surrogate (c : char) : bool := ((55296 <=? c) && (c <=? 57343))%N.

(** [s.encode("utf-8")] succeeds. *)
Definition encodable (s : str) : bool :=
  forallb (fun c => negb (is_surrogate c)) s.

(** Exceptions the handler can meet.  [ServiceError] stands for what the
    client library raises, with the text [str(e)] gives, which is taken to
    be encodable as the library builds it. *)
Inductive exn :=
| KeyError (key : str)
| TypeError
| AttributeError
| ServiceError (msg : str)
| JSONDecodeError
| RecursionError
| ValueError
| UnicodeEncodeError.

End Py.
Export Py.

(** ** The [json] module

    [JSON] is what [json.loads] builds: [None], [bool], [int], [float],
    [str], [list] and [dict].  A [dict] keeps its keys in insertion order,
    hence an association list with distinct keys.  A float is kept as the
    text of its literal: the application never computes with one.  The
    decoder follows the scanner of CPython's [json] package on a [str]
    argument, with the two limits of the interpreter it can hit: the
    recursion limit, met when containers nest too deep, and the limit on the
    digits of an integer literal.  It reads from left to right and the first
    failure is the one raised. *)

Module Json.

Inductive JSON :=
| JNull
| JBool (b : bool)
| JInt (n : Z)
| JFloat (lexeme : str)
| JString (s : str)
| JArray (items : list JSON)
| JObject (members : list (str * JSON)).

Definition dquote : char := 34%N.
Definition backslash : char := 92%N.
Definition lbrace : char := 123%N.
Definition rbrace : char := 125%N.
Definition lbracket : char := 91%N.
Definition rbracket : char := 93%N.
Definition comma : char := 44%N.
Definition colon : char := 58%N.
Definition minus : char := 45%N.
Definition plus : char := 43%N.
Definition dot : char := 46%N.
Definition zero : char := 48%N.
Definition letter_u : char := 117%N.

(** *** Dictionaries *)

Fixpoint dict_get (k : str) (d : list (str * JSON)) : option JSON :=
  match d with
  | [] => None
  | (k', v) :: d' => if str_eqb k' k then Some v else dict_get k d'
  end.

Definition dict_has (k : str) (d : list (str * JSON)) : bool :=
  match dict_get k d with Some _ => true | None => false end.

(** [d[k] = v]: an existing key keeps its place and takes the new value. *)
Fixpoint dict_set (k : str) (v : JSON) (d : list (str * JSON))
  : list (str * JSON) :=
  match d with
  | [] => [(k, v)]
  | (k', v') :: d' =>
      if str_eqb k' k then (k', v) :: d' else (k', v') :: dict_set k v d'
  end.

Definition dict_of_pairs (ps : list (str * JSON)) : list (str * JSON) :=
  fold_left (fun d kv => dict_set (fst kv) (snd kv) d) ps [].

(** *** Decoder: the scanner of [json.decoder] *)

Definition is_ws (c : char) : bool :=
  ((c =? 32) || (c =? 9) || (c =? 10) || (c =? 13))%N.

Fixpoint skip_ws (s : str) : str :=
  match s with
  | [] => []
  | c :: t => if is_ws c then skip_ws t else s
  end.

(** [Some rest] when [s = p ++ rest]. *)
Fixpoint strip_prefix (p s : str) : option str :=
  match p, s with
  | [], _ => Some s
  | _ :: _, [] => None
  | a :: p', b :: s' => if (a =? b)%N then strip_prefix p' s' else None
  end.

Definition hexval (c : char) : option N :=
  if ((48 <=? c) && (c <=? 57))%N then Some (c - 48)%N
  else if ((97 <=? c) && (c <=? 102))%N then Some (c - 87)%N
  else if ((65 <=? c) && (c <=? 70))%N then Some (c - 55)%N
  else None.

Definition hex4 (a b c d : char) : option N :=
  match hexval a, hexval b, hexval c, hexval d with
  | Some x, Some y, Some z, Some w =>
      Some (((x * 16 + y) * 16 + z) * 16 + w)%N
  | _, _, _, _ => None
  end.

Definition is_high (c : N) : bool := ((55296 <=? c) && (c <=? 56319))%N.
Definition is_low (c : N) : bool := ((56320 <=? c) && (c <=? 57343))%N.

Definition join_surrogates (hi lo : N) : char :=
  (65536 + ((hi - 55296) * 1024 + (lo - 56320)))%N.

(** The one-letter escapes of the decoder's [BACKSLASH] table. *)
Definition unescape (e : char) : option char :=
  if (e =? 34)%N then Some 34%N
  else if (e =? 92)%N then Some 92%N
  else if (e =? 47)%N then Some 47%N
  else if (e =? 98)%N then Some 8%N
  else if (e =? 102)%N then Some 12%N
  else if (e =? 110)%N then Some 10%N
  else if (e =? 114)%N then Some 13%N
  else if (e =? 116)%N then Some 9%N
  else None.

Definition cons_char (c : char) (r : option (str * str)) : option (str * str) :=
  match r with
  | Some (x, rest) => Some (c :: x, rest)
  | None => None
  end.

(** [scanstring], strict mode, entered after the opening quote: the decoded
    text and what follows the closing quote. *)
Fixpoint scanstring (s : str) : option (str * str) :=
  match s with
  | [] => None
  | c :: t =>
      if (c =? dquote)%N then Some ([], t)
      else if (c =? backslash)%N then
        match t with
        | [] => None
        | e :: t1 =>
            if (e =? letter_u)%N then
              match t1 with
              | h1 :: h2 :: h3 :: h4 :: t2 =>
                  match hex4 h1 h2 h3 h4 with
                  | None => None
                  | Some u =>
                      match t2 with
                      | b :: l :: g1 :: g2 :: g3 :: g4 :: t3 =>
                          if is_high u && (b =? backslash)%N && (l =? letter_u)%N
                          then
                            match hex4 g1 g2 g3 g4 with
                            | None => None
                            | Some v =>
                                if is_low v
                                then cons_char (join_surrogates u v) (scanstring t3)
                                else cons_char u (scanstring t2)
                            end
                          else cons_char u (scanstring t2)
                      | _ => cons_char u (scanstring t2)
                      end
                  end
              | _ => None
              end
            else
              match unescape e with
              | Some x => cons_char x (scanstring t1)
              | None => None
              end
        end
      else if (c <? 32)%N then None
      else cons_char c (scanstring t)
  end.

Definition is_digit (c : char) : bool := ((48 <=? c) && (c <=? 57))%N.

Fixpoint span_digits (s : str) : str * str :=
  match s with
  | [] => ([], [])
  | c :: t =>
      if is_digit c
      then let (d, r) := span_digits t in (c :: d, r)
      else ([], s)
  end.

Definition digits_value (ds : str) : Z :=
  fold_left (fun acc c => (acc * 10 + Z.of_N (c - 48))%Z) ds 0%Z.

(** The interpreter's limits: how many containers may be open at once
    before [RecursionError] (the recursion limit less the frames in use when
    [json.loads] is called), and [sys.get_int_max_str_digits()], [None] when
    there is no such limit (4300 by default since Python 3.11). *)
Class Limits := {
  max_depth : nat;
  max_digits : option nat
}.

Definition too_many_digits (limit : option nat) (digits : str) : bool :=
  match limit with
  | Some m => (m <? length digits)%nat
  | None => false
  end.

(** The number literal of the scanner: sign, integer part, then a fraction
    and an exponent when complete ones follow; an incomplete exponent is
    left unread. *)
Definition number_lexeme (s : str) : option (bool * str * str * str * str) :=
  let (neg, s1) :=
    match s with
    | c :: t => if (c =? minus)%N then (true, t) else (false, s)
    | [] => (false, s)
    end in
  match s1 with
  | [] => None
  | c :: t =>
      if is_digit c then
        let (int_ds, r1) :=
          if (c =? zero)%N then ([c], t)
          else let (d, r) := span_digits t in (c :: d, r) in
        let (frac, r2) :=
          match r1 with
          | p :: d :: r =>
              if (p =? dot)%N && is_digit d
              then let (ds, r') := span_digits r in (p :: d :: ds, r')
              else ([], r1)
          | _ => ([], r1)
          end in
        let (exp, r3) :=
          match r2 with
          | e :: r =>
              if ((e =? 101) || (e =? 69))%N then
                let (sg, r') :=
                  match r with
                  | x :: r'' =>
                      if ((x =? minus) || (x =? plus))%N
                      then ([x], r'') else ([], r)
                  | [] => ([], r)
                  end in
                let (ds, r'') := span_digits r' in
                match ds with
                | [] => ([], r2)
                | _ :: _ => (e :: sg ++ ds, r'')
                end
              else ([], r2)
          | [] => ([], r2)
          end in
        Some (neg, int_ds, frac, exp, r3)
      else None
  end.

(** A literal without fraction and exponent is an [int], refused with
    [ValueError] when it has too many digits; any other is a [float]. *)
Definition match_number (limit : option nat) (s : str) : exn + (JSON * str) :=
  match number_lexeme s with
  | None => inl JSONDecodeError
  | Some (neg, int_ds, frac, exp, r) =>
      match frac, exp with
      | [], [] =>
          if too_many_digits limit int_ds then inl ValueError
          else inr (JInt (if neg then (- digits_value int_ds)%Z
                          else digits_value int_ds), r)
      | _, _ =>
          inr (JFloat ((if neg then [minus] else []) ++ int_ds ++ frac ++ exp),
               r)
      end
  end.

(** The items of an array, entered at the first value.  [k] bounds the
    number of turns; more than the length of [s] is never used up
    ([array_items_fuel] below). *)
Fixpoint array_items (scan : str -> exn + (JSON * str)) (k : nat) (s : str)
  : exn + (list JSON * str) :=
  match k with
  | O => inl JSONDecodeError
  | S k' =>
      match scan s with
      | inl e => inl e
      | inr (v, r) =>
          match skip_ws r with
          | [] => inl JSONDecodeError
          | c :: r1 =>
              if (c =? rbracket)%N then inr ([v], r1)
              else if (c =? comma)%N then
                match array_items scan k' (skip_ws r1) with
                | inr (vs, r2) => inr (v :: vs, r2)
                | inl e => inl e
                end
              else inl JSONDecodeError
          end
      end
  end.

Definition parse_array (scan : str -> exn + (JSON * str)) (s : str)
  : exn + (JSON * str) :=
  match skip_ws s with
  | [] => inl JSONDecodeError
  | c :: r =>
      if (c =? rbracket)%N then inr (JArray [], r)
      else
        match array_items scan (S (length s)) (skip_ws s) with
        | inr (vs, r') => inr (JArray vs, r')
        | inl e => inl e
        end
  end.

(** The members of an object, entered at the quote of the first key. *)
Fixpoint object_items (scan : str -> exn + (JSON * str)) (k : nat) (s : str)
  : exn + (list (str * JSON) * str) :=
  match k with
  | O => inl JSONDecodeError
  | S k' =>
      match s with
      | [] => inl JSONDecodeError
      | q :: t =>
          if (q =? dquote)%N then
            match scanstring t with
            | None => inl JSONDecodeError
            | Some (key, r) =>
                match skip_ws r with
                | [] => inl JSONDecodeError
                | c :: r1 =>
                    if (c =? colon)%N then
                      match scan (skip_ws r1) with
                      | inl e => inl e
                      | inr (v, r2) =>
                          match skip_ws r2 with
                          | [] => inl JSONDecodeError
                          | d :: r3 =>
                              if (d =? rbrace)%N then inr ([(key, v)], r3)
                              else if (d =? comma)%N then
                                match object_items scan k' (skip_ws r3) with
                                | inr (ps, r4) => inr ((key, v) :: ps, r4)
                                | inl e => inl e
                                end
                              else inl JSONDecodeError
                          end
                      end
                    else inl JSONDecodeError
                end
            end
          else inl JSONDecodeError
      end
  end.

Definition parse_object (scan : str -> exn + (JSON * str)) (s : str)
  : exn + (JSON * str) :=
  match skip_ws s with
  | [] => inl JSONDecodeError
  | c :: r =>
      if (c =? rbrace)%N then inr (JObject [], r)
      else
        match object_items scan (S (length s)) (skip_ws s) with
        | inr (ps, r') => inr (JObject (dict_of_pairs ps), r')
        | inl e => inl e
        end
  end.

Definition literal (lit : str) (v : JSON) (s : str) : option (JSON * str) :=
  match strip_prefix lit s with
  | Some r => Some (v, r)
  | None => None
  end.

Definition first_of {A} (a b : option A) : option A :=
  match a with Some _ => a | None => b end.

(** The constants of the scanner. *)
Definition scan_literal (s : str) : option (JSON * str) :=
  first_of (literal (py "null") JNull s)
  (first_of (literal (py "true") (JBool true) s)
  (first_of (literal (py "false") (JBool false) s)
  (first_of (literal (py "NaN") (JFloat (py "NaN")) s)
  (first_of (literal (py "Infinity") (JFloat (py "Infinity")) s)
            (literal (py "-Infinity") (JFloat (py "-Infinity")) s))))).

(** What is read where no string, object or array begins. *)
Definition scan_atom (limit : option nat) (s : str) : exn + (JSON * str) :=
  match scan_literal s with
  | Some x => inr x
  | None => match_number limit s
  end.

(** [scan_once]: one value at the head of [s].  [depth] is the number of
    containers that may still be opened: the scanner enters a recursive call
    at every opening brace or bracket and raises [RecursionError] when none
    is left. *)
Fixpoint scan_once (limit : option nat) (depth : nat) (s : str)
  : exn + (JSON * str) :=
  match s with
  | [] => inl JSONDecodeError
  | c :: t =>
      if (c =? dquote)%N then
        match scanstring t with
        | Some (x, r) => inr (JString x, r)
        | None => inl JSONDecodeError
        end
      else if (c =? lbrace)%N then
        match depth with
        | O => inl RecursionError
        | S d => parse_object (scan_once limit d) t
        end
      else if (c =? lbracket)%N then
        match depth with
        | O => inl RecursionError
        | S d => parse_array (scan_once limit d) t
        end
      else scan_atom limit s
  end.

(** [json.loads(s)]: the value, or the exception raised.  A leading byte
    order mark is refused, white space may surround the value, and nothing
    else may follow it. *)
Definition json_loads {lim : Limits} (s : str) : exn + JSON :=
  if startswith [65279%N] s then inl JSONDecodeError
  else
    match scan_once max_digits max_depth (skip_ws s) with
    | inr (v, r) =>
        match skip_ws r with
        | [] => inr v
        | _ :: _ => inl JSONDecodeError
        end
    | inl e => inl e
    end.

(** *** Encoder: [json.dumps]

    [ensure_ascii] is the flag of [json.dumps]; [item_ws] and [key_ws] are
    the blanks written after a comma and after a colon (one space each by
    default, none in the compact form). *)

Record dump_options := {
  ensure_ascii : bool;
  item_ws : str;
  key_ws : str
}.

Definition hexdigit (d : N) : char :=
  if (d <? 10)%N then (48 + d)%N else (87 + d)%N.

Definition escape_u (n : N) : str :=
  [backslash; letter_u; hexdigit (n / 4096); hexdigit ((n / 256) mod 16);
   hexdigit ((n / 16) mod 16); hexdigit (n mod 16)]%N.

(** One character of a string literal.  Printable ASCII other than the quote
    and the backslash is copied; the encoder's table gives the short
    escapes; the rest is written as one [\u] escape, or as a surrogate pair
    above the basic plane.  Without [ensure_ascii] every character from
    space on is copied. *)
Definition escape_char (ascii_only : bool) (c : char) : str :=
  if (c =? 92)%N then [backslash; backslash]
  else if (c =? 34)%N then [backslash; dquote]
  else if (c =? 8)%N then [backslash; 98%N]
  else if (c =? 12)%N then [backslash; 102%N]
  else if (c =? 10)%N then [backslash; 110%N]
  else if (c =? 13)%N then [backslash; 114%N]
  else if (c =? 9)%N then [backslash; 116%N]
  else if (c <? 32)%N then escape_u c
  else if (c <=? 126)%N || negb ascii_only then [c]
  else if (c <? 65536)%N then escape_u c
  else
    let v := (c - 65536)%N in
    escape_u (55296 + v / 1024) ++ escape_u (56320 + v mod 1024).

Definition encode_string (ascii_only : bool) (s : str) : str :=
  dquote :: flat_map (escape_char ascii_only) s ++ [dquote].

Fixpoint join (sep : str) (parts : list str) : str :=
  match parts with
  | [] => []
  | [x] => x
  | x :: rest => x ++ sep ++ join sep rest
  end.

Fixpoint uint_chars (u : Decimal.uint) : str :=
  match u with
  | Decimal.Nil => []
  | Decimal.D0 u' => 48%N :: uint_chars u'
  | Decimal.D1 u' => 49%N :: uint_chars u'
  | Decimal.D2 u' => 50%N :: uint_chars u'
  | Decimal.D3 u' => 51%N :: uint_chars u'
  | Decimal.D4 u' => 52%N :: uint_chars u'
  | Decimal.D5 u' => 53%N :: uint_chars u'
  | Decimal.D6 u' => 54%N :: uint_chars u'
  | Decimal.D7 u' => 55%N :: uint_chars u'
  | Decimal.D8 u' => 56%N :: uint_chars u'
  | Decimal.D9 u' => 57%N :: uint_chars u'
  end.

Definition int_chars (n : Z) : str :=
  match n with
  | Z0 => [zero]
  | Zpos p => uint_chars (Pos.to_uint p)
  | Zneg p => minus :: uint_chars (Pos.to_uint p)
  end.

(** A float is written by the text it was read from; the round trip below is
    about values without numbers. *)
Fixpoint json_dumps_with (o : dump_options) (v : JSON) : str :=
  match v with
  | JNull => py "null"
  | JBool true => py "true"
  | JBool false => py "false"
  | JInt n => int_chars n
  | JFloat l => l
  | JString s => encode_string (ensure_ascii o) s
  | JArray items =>
      lbracket
        :: join (comma :: item_ws o) (map (json_dumps_with o) items)
        ++ [rbracket]
  | JObject members =>
      lbrace
        :: join (comma :: item_ws o)
             (map (fun kv => encode_string (ensure_ascii o) (fst kv)
                             ++ colon :: key_ws o
                             ++ json_dumps_with o (snd kv)) members)
        ++ [rbrace]
  end.

Definition default_options : dump_options :=
  {| ensure_ascii := true; item_ws := py " "; key_ws := py " " |}.

Definition compact_options : dump_options :=
  {| ensure_ascii := false; item_ws := []; key_ws := [] |}.

(** [json.dumps(v)] *)
Definition json_dumps (v : JSON) : str := json_dumps_with default_options v.

End Json.
Export Json.


(** ** The [graphviz.Digraph] the page receives *)

Module Graphviz.

Inductive statement :=
| NodeStmt (name label shape style fillcolor fontcolor tooltip : str)
| EdgeStmt (tail head label color penwidth : str).

Record Digraph := {
  comment : str;
  graph_attr : list (str * str);
  body : list statement
}.

(** [dot.node(...)] and [dot.edge(...)] append one statement. *)
Definition add (dot : Digraph) (st : statement) : Digraph :=
  {| comment := comment dot;
     graph_attr := graph_attr dot;
     body := body dot ++ [st] |}.

Definition encodable_statement (st : statement) : bool :=
  match st with
  | NodeStmt name label shape style fillcolor fontcolor tooltip =>
      encodable name && encodable label && encodable shape && encodable style
      && encodable fillcolor && encodable fontcolor && encodable tooltip
  | EdgeStmt tail head label color penwidth =>
      encodable tail && encodable head && encodable label && encodable color
      && encodable penwidth
  end.

(** The source of the drawing can be sent to the page: every string in it
    can be encoded.  [st.graphviz_chart] raises [UnicodeEncodeError]
    otherwise. *)
Definition encodable_digraph (dot : Digraph) : bool :=
  encodable (comment dot)
  && forallb (fun kv => encodable (fst kv) && encodable (snd kv))
             (graph_attr dot)
  && forallb encodable_statement (body dot).

End Graphviz.
Export Graphviz.

(** ** The script *)

Module App.

(** What the Python runtime supplies and the repository does not hold:
    [str.lower], with its action on ASCII text, and the conversion of a value
    in an f-string field, which leaves a string as it is. *)
Class Runtime := {
  lower : str -> str;
  lower_ascii : forall s, is_ascii s = true -> lower s = map ascii_lower s;
  format_value : JSON -> str;
  format_str : forall s, format_value (JString s) = s
}.

(** One call of [client.chat.completions.create]; the temperature is the
    same constant in both calls and is left out. *)
Record request := {
  model : str;
  system_message : str;
  user_message : str
}.

(** The completion service and the fixed text of the two prompts, each cut
    at the place where the pasted code is inserted.  [complete] stands for
    the call together with [.choices[0].message.content]: it gives the text
    of the first choice, or the exception that the call, the projection or
    the following [.strip()] on a reply without text raises. *)
Class Service := {
  complete : request -> exn + str;
  flowchart_head : str;
  flowchart_tail : str;
  explanation_head : str;
  explanation_tail : str
}.

(** Messages the page can show. *)
Inductive message :=
| PasteCodeFirst
| NoValidJson
| MissingNodesOrEdges
| GenerationFailed (e : exn).

(** What one press of the button does, in order. *)
Inductive event :=
| Completion (r : request)
| StWarning (m : message)
| StError (m : message)
| StCode (text : str)
| StStop
| StGraphvizChart (dot : Digraph)
| StMarkdown (text : str)
| StSubheader (text : str)
| StWrite (text : str)
| StRawJson (graph_data : JSON).

(** *** Lines 207-214: the JSON candidate *)

Definition json_start (flowchart_output : str) : Z := find lbrace flowchart_output.
Definition json_end (flowchart_output : str) : Z := rfind rbrace flowchart_output.

Definition json_string (flowchart_output : str) : str :=
  let json_start := json_start flowchart_output in
  let json_end := json_end flowchart_output in
  if negb (json_start =? -1)%Z && negb (json_end =? -1)%Z
     && (json_end >? json_start)%Z
  then slice flowchart_output json_start (json_end + 1)%Z
  else flowchart_output.

(** *** Lines 216-228: parsing and the check of the two keys *)

(** [key in v] for a value [json.loads] can return: a key of a dict, an
    element of a list, a substring of a string; anything else is not a
    container. *)
Definition py_in (key : str) (v : JSON) : exn + bool :=
  match v with
  | JObject d => inr (dict_has key d)
  | JArray l =>
      inr (existsb (fun x => match x with
                             | JString s => str_eqb key s
                             | _ => false
                             end) l)
  | JString s => inr (contains key s)
  | _ => inl TypeError
  end.

Inductive extraction :=
| MalformedOutput (raw : str)
| MissingField (raw : str)
| Raised (e : exn)
| Graph (graph_data : JSON).

(** Only [json.JSONDecodeError] is caught at line 219; any other exception
    of [json.loads] goes to the handler of line 315. *)
Definition extractGraph {lim : Limits} (flowchart_output : str) : extraction :=
  match json_loads (json_string flowchart_output) with
  | inl JSONDecodeError => MalformedOutput flowchart_output
  | inl e => Raised e
  | inr graph_data =>
      match py_in (py "nodes") graph_data with
      | inl e => Raised e
      | inr false => MissingField flowchart_output
      | inr true =>
          match py_in (py "edges") graph_data with
          | inl e => Raised e
          | inr false => MissingField flowchart_output
          | inr true => Graph graph_data
          end
      end
  end.

(** *** Lines 230-297: the diagram *)

Definition bind {A B} (x : exn + A) (f : A -> exn + B) : exn + B :=
  match x with
  | inl e => inl e
  | inr a => f a
  end.

Notation "x <- c ;; k" := (bind c (fun x => k))
  (at level 61, c at next level, right associativity).

(** [v[key]] with a string key. *)
Definition getitem (v : JSON) (key : str) : exn + JSON :=
  match v with
  | JObject d =>
      match dict_get key d with
      | Some x => inr x
      | None => inl (KeyError key)
      end
  | _ => inl TypeError
  end.

(** [v.get(key, default)] *)
Definition get_default (v : JSON) (key : str) (default : JSON) : exn + JSON :=
  match v with
  | JObject d =>
      match dict_get key d with
      | Some x => inr x
      | None => inr default
      end
  | _ => inl AttributeError
  end.

(** [for x in v]: the items of a list, the keys of a dict, the characters of
    a string. *)
Definition iterate (v : JSON) : exn + list JSON :=
  match v with
  | JArray l => inr l
  | JObject d => inr (map (fun kv => JString (fst kv)) d)
  | JString s => inr (map (fun c => JString [c]) s)
  | _ => inl TypeError
  end.

Record node_style := {
  shape : str;
  fillcolor : str;
  fontcolor : str
}.

Definition green : str := py "#32CD32".
Definition yellow : str := py "#FFD700".
Definition purple : str := py "#8A2BE2".
Definition red : str := py "#FF6347".
Definition light_blue : str := py "#ADD8E6".
Definition blue : str := py "#1E90FF".
Definition gray : str := py "#666666".
Definition pure_blue : str := py "#0000FF".

Section Script.

Context {rt : Runtime}.

(** Lines 240-263. *)
Definition style_of_label (node_label : str) : node_style :=
  let shape := py "box" in
  let fillcolor := blue in
  let fontcolor := py "white" in
  if contains (py "start") (lower node_label) then
    {| shape := py "oval"; fillcolor := green; fontcolor := fontcolor |}
  else if contains (py "check") (lower node_label)
          || contains (py "if") (lower node_label)
          || contains (py "loop") (lower node_label)
          || contains (py "condition") (lower node_label) then
    {| shape := py "diamond"; fillcolor := yellow; fontcolor := py "black" |}
  else if contains (py "return") (lower node_label)
          || contains (py "end") (lower node_label) then
    {| shape := py "oval"; fillcolor := purple; fontcolor := fontcolor |}
  else if contains (py "call") (lower node_label)
          || contains (py "function") (lower node_label) then
    {| shape := py "box"; fillcolor := red; fontcolor := fontcolor |}
  else if contains (py "initialize") (lower node_label)
          || contains (py "variable") (lower node_label)
          || contains (py "assign") (lower node_label) then
    {| shape := py "box"; fillcolor := light_blue; fontcolor := py "black" |}
  else
    {| shape := shape; fillcolor := fillcolor; fontcolor := fontcolor |}.

(** Lines 281-289. *)
Definition edge_color (label_text : str) : str :=
  if str_eqb (lower label_text) (py "yes")
     || contains (py "true") (lower label_text) then green
  else if str_eqb (lower label_text) (py "no")
          || contains (py "false") (lower label_text) then red
  else if contains (py "iteration") (lower label_text)
          || contains (py "loop") (lower label_text) then pure_blue
  else gray.

(** [v.lower()] on a value of any type: only a string has the method. *)
Definition as_label (v : JSON) : exn + str :=
  match v with
  | JString s => inr s
  | _ => inl AttributeError
  end.

(** One turn of the loop over the nodes, lines 237-273. *)
Definition add_node (dot : Digraph) (node : JSON) : exn + Digraph :=
  id <- getitem node (py "id") ;;
  let node_id := py "N_" ++ format_value id in
  label <- getitem node (py "label") ;;
  node_label <- as_label label ;;
  let st := style_of_label node_label in
  inr (add dot (NodeStmt node_id node_label (shape st) (py "filled")
                  (fillcolor st) (fontcolor st) node_label)).

(** One turn of the loop over the edges, lines 277-297. *)
Definition add_edge (dot : Digraph) (edge : JSON) : exn + Digraph :=
  from <- getitem edge (py "from") ;;
  let edge_from_prefixed := py "N_" ++ format_value from in
  to <- getitem edge (py "to") ;;
  let edge_to_prefixed := py "N_" ++ format_value to in
  label <- get_default edge (py "label") (JString []) ;;
  label_text <- as_label label ;;
  inr (add dot (EdgeStmt edge_from_prefixed edge_to_prefixed label_text
                  (edge_color label_text) (py "2.0"))).

Fixpoint for_each (step : Digraph -> JSON -> exn + Digraph)
         (items : list JSON) (dot : Digraph) : exn + Digraph :=
  match items with
  | [] => inr dot
  | x :: rest => dot' <- step dot x ;; for_each step rest dot'
  end.

Definition empty_digraph : Digraph :=
  {| comment := py "Code Flowchart";
     graph_attr := [(py "rankdir", py "TB"); (py "splines", py "ortho")];
     body := [] |}.

Definition render (graph_data : JSON) : exn + Digraph :=
  nodes <- getitem graph_data (py "nodes") ;;
  nodes <- iterate nodes ;;
  dot <- for_each add_node nodes empty_digraph ;;
  edges <- getitem graph_data (py "edges") ;;
  edges <- iterate edges ;;
  for_each add_edge edges dot.

(** *** Lines 207-316: from the two completions to the page

    A text handed to an element of the page is encoded on the way; when it
    cannot be, the call raises [UnicodeEncodeError], which the handler of
    line 315 reports like any other exception, also when it is raised
    inside the handlers of lines 219-228. *)

Context {lim : Limits}.

(** [st.code(flowchart_output)] and [st.stop()] after an error message. *)
Definition show_raw (raw : str) : list event :=
  if encodable raw then [StCode raw; StStop]
  else [StError (GenerationFailed UnicodeEncodeError)].

Definition present (flowchart_output code_explanation : str) : list event :=
  match extractGraph flowchart_output with
  | MalformedOutput raw => StError NoValidJson :: show_raw raw
  | MissingField raw => StError MissingNodesOrEdges :: show_raw raw
  | Raised e => [StError (GenerationFailed e)]
  | Graph graph_data =>
      match render graph_data with
      | inl e => [StError (GenerationFailed e)]
      | inr dot =>
          if encodable_digraph dot then
            StGraphvizChart dot :: StMarkdown (py "---")
              :: StSubheader (py "Code Explanation")
              :: (if encodable code_explanation
                  then [StWrite code_explanation; StRawJson graph_data]
                  else [StError (GenerationFailed UnicodeEncodeError)])
          else [StError (GenerationFailed UnicodeEncodeError)]
      end
  end.

(** *** Lines 95-316: the button *)

Context {svc : Service}.

Definition flowchart_prompt (code_input : str) : str :=
  flowchart_head ++ code_input ++ flowchart_tail.

Definition code_explanation_prompt (code_input : str) : str :=
  explanation_head ++ code_input ++ explanation_tail.

Definition flowchart_request (model_choice code_input : str) : request :=
  {| model := model_choice;
     system_message := py "You are a helpful assistant specialized in code analysis and visualization, outputting only valid JSON.";
     user_message := flowchart_prompt code_input |}.

Definition explanation_request (model_choice code_input : str) : request :=
  {| model := model_choice;
     system_message := py "You are a helpful programming tutor, providing clear explanations.";
     user_message := code_explanation_prompt code_input |}.

Definition generate (code_input model_choice : str) : list event :=
  if negb (truthy (strip code_input)) then [StWarning PasteCodeFirst]
  else
    let first := flowchart_request model_choice code_input in
    match complete first with
    | inl e => [Completion first; StError (GenerationFailed e)]
    | inr content =>
        let flowchart_output := strip content in
        let second := explanation_request model_choice code_input in
        match complete second with
        | inl e =>
            [Completion first; Completion second;
             StError (GenerationFailed e)]
        | inr content' =>
            let code_explanation := strip content' in
            Completion first :: Completion second
              :: present flowchart_output code_explanation
        end
    end.

End Script.

(** A diagram is shown exactly when the chart event occurs. *)
Definition shows_diagram (trace : list event) : bool :=
  existsb (fun e => match e with StGraphvizChart _ => true | _ => false end)
          trace.

Definition calls_service (trace : list event) : bool :=
  existsb (fun e => match e with Completion _ => true | _ => false end) trace.

End App.
Export App.

(** ** Reference instances

    [ascii_runtime] is exact on ASCII text and on string identifiers, which
    is what the examples and the counterexamples use. *)

Definition ascii_format (v : JSON) : str :=
  match v with
  | JString s => s
  | JNull => py "None"
  | JBool true => py "True"
  | JBool false => py "False"
  | JInt n => int_chars n
  | _ => json_dumps v
  end.

Definition ascii_runtime : Runtime :=
  {| lower := map ascii_lower;
     lower_ascii := fun s _ => eq_refl;
     format_value := ascii_format;
     format_str := fun s => eq_refl |}.

(** Limits for the examples: the default limit on digits and room for 900
    nested containers. *)
Definition reference_limits : Limits :=
  {| max_depth := 900; max_digits := Some 4300 |}.

(** A service that answers the flowchart request with [flowchart] and the
    explanation request with [explanation]. *)
Definition canned_service (flowchart explanation : exn + str) : Service :=
  {| complete := fun r =>
       if contains (py "JSON") (system_message r)
       then flowchart else explanation;
     flowchart_head := py "Analyze the following Python code: ";
     flowchart_tail := [];
     explanation_head := py "Explain the following Python code: ";
     explanation_tail := [] |}.

(** ** The data model of the specification *)

Record FlowNode := {
  node_id : str;
  node_label : str
}.

Record FlowEdge := {
  edge_from : str;
  edge_to : str;
  edge_label : option str
}.

Record FlowGraph := {
  nodes : list FlowNode;
  edges : list FlowEdge
}.

Definition node_json (n : FlowNode) : JSON :=
  JObject [(py "id", JString (node_id n)); (py "label", JString (node_label n))].

Definition edge_json (e : FlowEdge) : JSON :=
  JObject ([(py "from", JString (edge_from e)); (py "to", JString (edge_to e))]
           ++ match edge_label e with
              | Some l => [(py "label", JString l)]
              | None => []
              end).

Definition graph_json (g : FlowGraph) : JSON :=
  JObject [(py "nodes", JArray (map node_json (nodes g)));
           (py "edges", JArray (map edge_json (edges g)))].

(** The rule tables of the specification, as it words them: keyword groups
    in order, the first group with a keyword inside the lower-cased label
    wins. *)
Definition oval_green_white : node_style :=
  {| shape := py "oval"; fillcolor := green; fontcolor := py "white" |}.
Definition diamond_yellow_black : node_style :=
  {| shape := py "diamond"; fillcolor := yellow; fontcolor := py "black" |}.
Definition oval_purple_white : node_style :=
  {| shape := py "oval"; fillcolor := purple; fontcolor := py "white" |}.
Definition box_red_white : node_style :=
  {| shape := py "box"; fillcolor := red; fontcolor := py "white" |}.
Definition box_lightblue_black : node_style :=
  {| shape := py "box"; fillcolor := light_blue; fontcolor := py "black" |}.
Definition box_blue_white : node_style :=
  {| shape := py "box"; fillcolor := blue; fontcolor := py "white" |}.

Definition first_match {A} (rules : list ((str -> bool) * A)) (default : A)
           (text : str) : A :=
  match List.find (fun r => fst r text) rules with
  | Some r => snd r
  | None => default
  end.

Definition any_keyword (keywords : list str) (text : str) : bool :=
  existsb (fun k => contains k text) keywords.

Definition node_rules : list ((str -> bool) * node_style) :=
  [ (any_keyword [py "start"], oval_green_white);
    (any_keyword [py "check"; py "if"; py "loop"; py "condition"],
     diamond_yellow_black);
    (any_keyword [py "return"; py "end"], oval_purple_white);
    (any_keyword [py "call"; py "function"], box_red_white);
    (any_keyword [py "initialize"; py "variable"; py "assign"],
     box_lightblue_black) ].

Definition exactly_or_contains (exact inside : str) (text : str) : bool :=
  str_eqb text exact || contains inside text.

Definition edge_rules : list ((str -> bool) * str) :=
  [ (exactly_or_contains (py "yes") (py "true"), green);
    (exactly_or_contains (py "no") (py "false"), red);
    (any_keyword [py "iteration"; py "loop"], pure_blue) ].

(** The drawing a typed graph stands for: one statement per node and per
    edge, in order; endpoints are prefixed and not looked up among the
    nodes. *)
Definition node_statement {rt : Runtime} (n : FlowNode) : statement :=
  let st := style_of_label (node_label n) in
  NodeStmt (py "N_" ++ node_id n) (node_label n) (shape st) (py "filled")
           (fillcolor st) (fontcolor st) (node_label n).

Definition edge_statement {rt : Runtime} (e : FlowEdge) : statement :=
  let label_text := match edge_label e with Some l => l | None => [] end in
  EdgeStmt (py "N_" ++ edge_from e) (py "N_" ++ edge_to e) label_text
           (edge_color label_text) (py "2.0").

Definition diagram_of {rt : Runtime} (g : FlowGraph) : Digraph :=
  {| comment := py "Code Flowchart";
     graph_attr := [(py "rankdir", py "TB"); (py "splines", py "ortho")];
     body := map node_statement (nodes g) ++ map edge_statement (edges g) |}.

(** Unicode text: code points in range that are not surrogates. *)
Definition scalar (c : char) : bool :=
  ((c <? 55296) || (57343 <? c) && (c <? 1114112))%N.

Definition text (s : str) : bool := forallb scalar s.

Definition text_graph (g : FlowGraph) : bool :=
  forallb (fun n => text (node_id n) && text (node_label n)) (nodes g)
  && forallb (fun e => text (edge_from e) && text (edge_to e)
                       && match edge_label e with
                          | Some l => text l
                          | None => true
                          end) (edges g).

(** The strings of a graph can be encoded: none holds a surrogate. *)
Definition encodable_graph (g : FlowGraph) : bool :=
  forallb (fun n => encodable (node_id n) && encodable (node_label n)) (nodes g)
  && forallb (fun e => encodable (edge_from e) && encodable (edge_to e)
                       && match edge_label e with
                          | Some l => encodable l
                          | None => true
                          end) (edges g).

Definition blank (s : str) : bool := forallb is_ws s.

(** Options under which the encoder writes JSON: blanks only after commas
    and colons. *)
Definition options_ok (o : dump_options) : bool :=
  blank (item_ws o) && blank (key_ws o).

Fixpoint distinct (keys : list str) : bool :=
  match keys with
  | [] => true
  | k :: rest => negb (existsb (str_eqb k) rest) && distinct rest
  end.

(** Strings that [json.dumps] writes so that they are read back when it
    escapes everything outside ASCII: code points in range, and no high
    surrogate directly before a low one, since the two escapes would be read
    as one character. *)
Fixpoint unpaired (s : str) : bool :=
  match s with
  | [] => true
  | a :: t =>
      negb (is_high a && match t with b :: _ => is_low b | [] => false end)
      && unpaired t
  end.

Definition escapable (s : str) : bool :=
  forallb (fun c => (c <? 1114112)%N) s && unpaired s.

Definition escapable_graph (g : FlowGraph) : bool :=
  forallb (fun n => escapable (node_id n) && escapable (node_label n)) (nodes g)
  && forallb (fun e => escapable (edge_from e) && escapable (edge_to e)
                       && match edge_label e with
                          | Some l => escapable l
                          | None => true
                          end) (edges g).

(** Values the round trip is stated for: no numbers, the keys of a dict
    distinct, and, when the encoder escapes everything outside ASCII,
    strings that are [escapable]. *)
Fixpoint printable (ascii_only : bool) (v : JSON) : bool :=
  match v with
  | JNull | JBool _ => true
  | JInt _ | JFloat _ => false
  | JString s => negb ascii_only || escapable s
  | JArray items => forallb (printable ascii_only) items
  | JObject members =>
      distinct (map fst members)
      && forallb (fun kv => (negb ascii_only || escapable (fst kv))
                            && printable ascii_only (snd kv)) members
  end.

(** How deep the containers of a value nest. *)
Fixpoint nesting (v : JSON) : nat :=
  match v with
  | JArray items => S (list_max (map nesting items))
  | JObject members => S (list_max (map (fun kv => nesting (snd kv)) members))
  | _ => 0
  end.

(** A parsed value has a key when it is a dict that holds it. *)
Definition has_key (key : str) (v : JSON) : bool :=
  match v with
  | JObject d => dict_has key d
  | _ => false
  end.






Definition is_number (v : JSON) : Prop :=
  match v with
  | JInt _ | JFloat _ => True
  | _ => False
  end.

(** The first character of an encoded value: never a blank, a closing
    bracket, a closing brace or a byte order mark. *)
Definition plain_head (s : str) : Prop :=
  match s with
  | [] => False
  | c :: _ =>
      is_ws c = false /\ (c =? rbracket)%N = false
      /\ (c =? rbrace)%N = false /\ (c =? 65279)%N = false
  end.

(** One member of an encoded dict. *)
Definition member_text (o : dump_options) (kv : str * JSON) : str :=
  encode_string (ensure_ascii o) (fst kv)
  ++ colon :: key_ws o ++ json_dumps_with o (snd kv).

(** A list holds a given string among its items. *)
Definition holds_string (key : str) (items : list JSON) : bool :=
  existsb (fun x => match x with
                    | JString s => str_eqb key s
                    | _ => false
                    end) items.

(** A drawing with more statements appended. *)
Definition extend (dot : Digraph) (statements : list statement) : Digraph :=
  {| comment := comment dot; graph_attr := graph_attr dot;
     body := body dot ++ statements |}.

(** ** What a trace holds *)





(** The names of the node statements of a drawing, in order. *)
Definition node_names (statements : list statement) : list str :=
  flat_map (fun st => match st with
                      | NodeStmt name _ _ _ _ _ _ => [name]
                      | EdgeStmt _ _ _ _ _ => []
                      end) statements.

(** The statement a node entry is drawn as: the entry is a dict with an id
    and a string label. *)
Definition draws_node {rt : Runtime} (n : JSON) (st : statement) : Prop :=
  exists d id l,
    n = JObject d
    /\ dict_get (py "id") d = Some id
    /\ dict_get (py "label") d = Some (JString l)
    /\ st = NodeStmt (py "N_" ++ format_value id) l
                     (shape (style_of_label l)) (py "filled")
                     (fillcolor (style_of_label l))
                     (fontcolor (style_of_label l)) l.

(** The statement an edge entry is drawn as: the entry is a dict with both
    endpoints and a label that is a string or absent. *)
Definition draws_edge {rt : Runtime} (e : JSON) (st : statement) : Prop :=
  exists d from to l,
    e = JObject d
    /\ dict_get (py "from") d = Some from
    /\ dict_get (py "to") d = Some to
    /\ (dict_get (py "label") d = Some (JString l)
        \/ dict_get (py "label") d = None /\ l = [])
    /\ st = EdgeStmt (py "N_" ++ format_value from) (py "N_" ++ format_value to)
                     l (edge_color l) (py "2.0").

(** ** Lines 57-90: the list of models

    The answer of [client.models.list()] is a Python value of no fixed
    type; the script reads it through [getattr], [isinstance] and
    [dict.get].  [pyobj] holds the shapes it tells apart: the built-in
    values and an object as the record of its attributes (always true in a
    condition, not iterable). *)

Module Discovery.

Inductive pyobj :=
| ONone
| OBool (b : bool)
| OInt (n : Z)
| OStr (s : str)
| OList (items : list pyobj)
| ODict (members : list (str * pyobj))
| ORecord (attributes : list (str * pyobj)).

Fixpoint lookup (k : str) (d : list (str * pyobj)) : option pyobj :=
  match d with
  | [] => None
  | (k', v) :: d' => if str_eqb k' k then Some v else lookup k d'
  end.

(** Truth value in a condition. *)
Definition truth (x : pyobj) : bool :=
  match x with
  | ONone => false
  | OBool b => b
  | OInt n => negb (n =? 0)%Z
  | OStr s => truthy s
  | OList items => match items with [] => false | _ :: _ => true end
  | ODict members => match members with [] => false | _ :: _ => true end
  | ORecord _ => true
  end.

(** [getattr(x, name, None)] *)
Definition getattr (x : pyobj) (name : str) : pyobj :=
  match x with
  | ORecord attributes =>
      match lookup name attributes with
      | Some v => v
      | None => ONone
      end
  | _ => ONone
  end.

(** [x.get(key)] on a dict. *)
Definition dict_lookup (members : list (str * pyobj)) (key : str) : pyobj :=
  match lookup key members with
  | Some v => v
  | None => ONone
  end.

(** [a or b] *)
Definition py_or (a b : pyobj) : pyobj := if truth a then a else b.

(** [for m in data] *)
Definition items_of (data : pyobj) : exn + list pyobj :=
  match data with
  | OList items => inr items
  | ODict members => inr (map (fun kv => OStr (fst kv)) members)
  | OStr s => inr (map (fun c => OStr [c]) s)
  | _ => inl TypeError
  end.

(** Lines 71-75. *)
Definition model_id (m : pyobj) : pyobj :=
  match m with
  | ODict members =>
      py_or (dict_lookup members (py "id")) (dict_lookup members (py "model"))
  | _ => py_or (getattr m (py "id")) (getattr m (py "model"))
  end.

(** Lines 70-77: the loop appends every identifier that is true. *)
Definition collect (items : list pyobj) : list pyobj :=
  flat_map (fun m => if truth (model_id m) then [model_id m] else []) items.

(** Lines 65-67. *)
Definition data_of (resp : pyobj) : pyobj :=
  let data :=
    py_or (getattr resp (py "data"))
          (match resp with
           | ODict members => dict_lookup members (py "data")
           | _ => ONone
           end) in
  match resp with
  | OList _ => if negb (truth data) then resp else data
  | _ => data
  end.

(** Lines 61-80: the models found and the exception the warning shows, if
    any.  [response] is what [client.models.list()] gives or raises. *)
Definition discover (response : exn + pyobj) : list pyobj * option exn :=
  match response with
  | inl e => ([], Some e)
  | inr resp =>
      let data := data_of resp in
      if truth data then
        match items_of data with
        | inl e => ([], Some e)
        | inr items => (collect items, None)
        end
      else ([], None)
  end.

Definition default_models : list pyobj :=
  [OStr (py "openrouter/cypher-alpha:free");
   OStr (py "mistralai/mistral-small-3.2-24b-instruct:free");
   OStr (py "deepseek/deepseek-r1:free")].

(** Lines 82-88: the options of the select box. *)
Definition available_models (response : exn + pyobj) : list pyobj :=
  match fst (discover response) with
  | [] => default_models
  | found => found
  end.

End Discovery.
Export Discovery.

(** * Properties *)

(** ** Strings *)

Lemma str_eqb_eq (a b : str) : str_eqb a b = true <-> a = b.
Proof.
  unfold str_eqb. destruct (list_eq_dec N.eq_dec a b); split; congruence.
Qed.

Lemma str_eqb_refl (a : str) : str_eqb a a = true.
Proof. now apply str_eqb_eq. Qed.

Lemma find_from_absent c s i : ~ In c s -> find_from c s i = (-1)%Z.
Proof.
  revert i. induction s as [|x t IH]; intros i H; simpl; [reflexivity|].
  destruct (N.eqb_spec x c) as [->|_].
  - exfalso. apply H. now left.
  - apply IH. intro K. apply H. now right.
Qed.

Lemma find_from_first c pre rest i :
  ~ In c pre ->
  find_from c (pre ++ c :: rest) i = (i + Z.of_nat (length pre))%Z.
Proof.
  revert i. induction pre as [|x t IH]; intros i H; simpl.
  - rewrite N.eqb_refl. lia.
  - destruct (N.eqb_spec x c) as [->|_].
    + exfalso. apply H. now left.
    + rewrite IH by (intro K; apply H; now right). lia.
Qed.

Lemma rfind_from_absent c s i last : ~ In c s -> rfind_from c s i last = last.
Proof.
  revert i last. induction s as [|x t IH]; intros i last H; simpl; [reflexivity|].
  destruct (N.eqb_spec x c) as [->|_].
  - exfalso. apply H. now left.
  - apply IH. intro K. apply H. now right.
Qed.

Lemma rfind_from_last c pre post i last :
  ~ In c post ->
  rfind_from c (pre ++ c :: post) i last = (i + Z.of_nat (length pre))%Z.
Proof.
  revert i last. induction pre as [|x t IH]; intros i last H; simpl.
  - rewrite N.eqb_refl. rewrite rfind_from_absent by assumption. lia.
  - rewrite IH by assumption. lia.
Qed.

Lemma slice_middle (pre mid post : str) :
  slice (pre ++ mid ++ post) (Z.of_nat (length pre))
        (Z.of_nat (length pre + length mid)) = mid.
Proof.
  unfold slice, clamp. rewrite !length_app.
  destruct (Z.ltb_spec (Z.of_nat (length pre)) 0); [lia|].
  destruct (Z.ltb_spec (Z.of_nat (length pre + length mid)) 0); [lia|].
  rewrite !Z.min_l by lia.
  replace (Z.to_nat (Z.of_nat (length pre + length mid) - Z.of_nat (length pre)))
    with (length mid) by lia.
  rewrite Nat2Z.id.
  rewrite skipn_app, skipn_all, Nat.sub_diag. simpl.
  rewrite firstn_app, firstn_all, Nat.sub_diag. simpl. apply app_nil_r.
Qed.

(** ** The JSON candidate (lines 207-214) *)

Lemma json_string_no_brace raw :
  ~ In lbrace raw \/ ~ In rbrace raw -> json_string raw = raw.
Proof.
  intros [H|H]; unfold json_string, json_start, json_end, find, rfind.
  - rewrite find_from_absent by assumption. reflexivity.
  - rewrite (rfind_from_absent _ _ _ _ H). simpl.
    now rewrite andb_false_r.
Qed.

Lemma json_string_between pre mid post :
  ~ In lbrace pre -> ~ In rbrace post ->
  json_string (pre ++ lbrace :: mid ++ rbrace :: post) = lbrace :: mid ++ [rbrace].
Proof.
  intros Hpre Hpost.
  unfold json_string, json_start, json_end, find, rfind.
  rewrite find_from_first by assumption.
  replace (pre ++ lbrace :: mid ++ rbrace :: post)
    with ((pre ++ lbrace :: mid) ++ rbrace :: post)
    by (rewrite <- app_assoc; reflexivity).
  rewrite rfind_from_last by assumption.
  rewrite length_app. simpl length.
  destruct (Z.eqb_spec (0 + Z.of_nat (length pre)) (-1)); [lia|].
  destruct (Z.eqb_spec (0 + Z.of_nat (length pre + S (length mid))) (-1)); [lia|].
  destruct (Z.gtb_spec (0 + Z.of_nat (length pre + S (length mid)))
                       (0 + Z.of_nat (length pre))); [|lia].
  simpl andb. cbv iota.
  replace ((pre ++ lbrace :: mid) ++ rbrace :: post)
    with (pre ++ (lbrace :: mid ++ [rbrace]) ++ post)
    by (rewrite <- !app_assoc; simpl; rewrite <- app_assoc; reflexivity).
  replace (0 + Z.of_nat (length pre + S (length mid)) + 1)%Z
    with (Z.of_nat (length pre + length (lbrace :: mid ++ [rbrace])))
    by (simpl length; rewrite length_app; simpl length; lia).
  replace (0 + Z.of_nat (length pre))%Z with (Z.of_nat (length pre)) by lia.
  apply slice_middle.
Qed.

Lemma json_string_reversed a b c :
  ~ In lbrace a -> ~ In lbrace b -> ~ In rbrace b -> ~ In rbrace c ->
  json_string (a ++ rbrace :: b ++ lbrace :: c) = a ++ rbrace :: b ++ lbrace :: c.
Proof.
  intros Ha Hb Hb' Hc.
  unfold json_string, json_start, json_end, find, rfind.
  rewrite rfind_from_last.
  2:{ rewrite in_app_iff. intros [K|[K|K]]; [tauto|discriminate|tauto]. }
  replace (a ++ rbrace :: b ++ lbrace :: c)
    with ((a ++ rbrace :: b) ++ lbrace :: c)
    by (rewrite <- app_assoc; reflexivity).
  rewrite find_from_first.
  2:{ rewrite in_app_iff. intros [K|[K|K]]; [tauto|discriminate|tauto]. }
  rewrite length_app. simpl length.
  destruct (Z.gtb_spec (0 + Z.of_nat (length a))
                       (0 + Z.of_nat (length a + S (length b)))); [lia|].
  now rewrite andb_false_r.
Qed.

(** C2, as the claim words it, fails: in the text [}{] both braces occur,
    the slice from the first opening to the last closing brace is empty, and
    the candidate is the whole text. *)
Lemma candidate_reversed_braces :
  ~ (forall raw : str,
        In lbrace raw -> In rbrace raw ->
        json_string raw
        = slice raw (find lbrace raw) (rfind rbrace raw + 1)%Z).
Proof.
  intro H. specialize (H (py "}{")).
  assert (K : json_string (py "}{") = []).
  { apply H; vm_compute; auto. }
  vm_compute in K. discriminate K.
Qed.

(** C2, amended: when the last closing brace comes after the first opening
    brace, the candidate runs from the one to the other, both included;
    when a brace is missing, or the last closing brace comes before the first
    opening one, the candidate is the whole text. *)
Theorem candidate_slicing (raw : str) :
  (forall pre mid post,
      raw = pre ++ lbrace :: mid ++ rbrace :: post ->
      ~ In lbrace pre -> ~ In rbrace post ->
      json_string raw = lbrace :: mid ++ [rbrace])
  /\ (~ In lbrace raw \/ ~ In rbrace raw -> json_string raw = raw)
  /\ (forall a b c,
         raw = a ++ rbrace :: b ++ lbrace :: c ->
         ~ In lbrace (a ++ b) -> ~ In rbrace (b ++ c) ->
         json_string raw = raw).
Proof.
  split; [|split].
  - intros pre mid post -> Hpre Hpost. now apply json_string_between.
  - apply json_string_no_brace.
  - intros a b c -> Hl Hr. rewrite in_app_iff in Hl, Hr.
    apply json_string_reversed; tauto.
Qed.

Lemma candidate_slicing_witness :
  json_string (pyq "Sure! {'nodes': [], 'edges': []} Hope that helps")
  = pyq "{'nodes': [], 'edges': []}"
  /\ json_string (py "no braces here") = py "no braces here"
  /\ json_string (py "} then {") = py "} then {".
Proof.
  split; [|split].
  - apply (proj1 (candidate_slicing _) (py "Sure! ") (pyq "'nodes': [], 'edges': []")
             (py " Hope that helps")).
    + reflexivity.
    + vm_compute. intuition discriminate.
    + vm_compute. intuition discriminate.
  - apply (proj1 (proj2 (candidate_slicing _))). left.
    vm_compute. intuition discriminate.
  - apply (proj2 (proj2 (candidate_slicing _)) [] (py " then ") []).
    + reflexivity.
    + vm_compute. intuition discriminate.
    + vm_compute. intuition discriminate.
Defined.

(** ** Styles (lines 240-263 and 279-289) *)

Ltac run_ascii :=
  rewrite ?lower_ascii by (vm_compute; reflexivity); vm_compute; reflexivity.

Lemma style_of_label_table {rt : Runtime} (label : str) :
  style_of_label label = first_match node_rules box_blue_white (lower label).
Proof.
  unfold style_of_label, first_match, node_rules, any_keyword.
  cbn [List.find fst snd existsb].
  rewrite !orb_false_r.
  destruct (contains (py "start") (lower label)); [reflexivity|].
  destruct (contains (py "check") (lower label)); [reflexivity|].
  destruct (contains (py "if") (lower label)); [reflexivity|].
  destruct (contains (py "loop") (lower label)); [reflexivity|].
  destruct (contains (py "condition") (lower label)); [reflexivity|].
  destruct (contains (py "return") (lower label)); [reflexivity|].
  destruct (contains (py "end") (lower label)); [reflexivity|].
  destruct (contains (py "call") (lower label)); [reflexivity|].
  destruct (contains (py "function") (lower label)); [reflexivity|].
  destruct (contains (py "initialize") (lower label)); [reflexivity|].
  destruct (contains (py "variable") (lower label)); [reflexivity|].
  destruct (contains (py "assign") (lower label)); reflexivity.
Qed.

(** C1, as the claim words it, fails: a label with "loop" and "return" that
    also holds "start" takes the first rule, not the diamond. *)
Lemma loop_and_return_after_start :
  ~ (forall (rt : Runtime) (label : str),
        contains (py "loop") (lower label) = true ->
        contains (py "return") (lower label) = true ->
        style_of_label label = diamond_yellow_black).
Proof.
  intro H.
  specialize (H ascii_runtime (py "Restart the loop and return")).
  vm_compute in H. specialize (H eq_refl eq_refl). discriminate H.
Qed.

(** C1, amended: the style of a label is the entry of the first keyword
    group, in the order start; check/if/loop/condition; return/end;
    call/function; initialize/variable/assign, that has a keyword inside the
    lower-cased label, and box/blue/white when none has.  The three labels
    of the specification get the styles it names, and a label with "loop"
    and "return" gets the diamond provided "start" is not in it too. *)
Theorem node_style_precedence {rt : Runtime} (label : str) :
  style_of_label label = first_match node_rules box_blue_white (lower label)
  /\ In (style_of_label label) (box_blue_white :: map snd node_rules)
  /\ (contains (py "start") (lower label) = false ->
      contains (py "loop") (lower label) = true ->
      contains (py "return") (lower label) = true ->
      style_of_label label = diamond_yellow_black)
  /\ style_of_label (py "Start: factorial(n)") = oval_green_white
  /\ style_of_label (py "Check n <= 1") = diamond_yellow_black
  /\ style_of_label [] = box_blue_white.
Proof.
  split; [apply style_of_label_table|].
  split.
  { rewrite style_of_label_table. unfold first_match.
    destruct (List.find _ node_rules) as [r|] eqn:E.
    - right. apply in_map. eapply find_some. exact E.
    - now left. }
  split.
  { intros Hs Hl Hr. unfold style_of_label.
    rewrite Hs, Hl. now rewrite !orb_true_r. }
  unfold style_of_label.
  repeat split; run_ascii.
Qed.

Lemma node_style_precedence_witness :
  @style_of_label ascii_runtime (py "Loop until return")
  = diamond_yellow_black.
Proof.
  apply (proj1 (proj2 (proj2
           (@node_style_precedence ascii_runtime (py "Loop until return")))));
    vm_compute; reflexivity.
Defined.

Lemma edge_color_table {rt : Runtime} (label_text : str) :
  edge_color label_text = first_match edge_rules gray (lower label_text).
Proof.
  unfold edge_color, first_match, edge_rules, any_keyword, exactly_or_contains.
  cbn [List.find fst snd existsb].
  rewrite !orb_false_r.
  destruct (str_eqb (lower label_text) (py "yes")
            || contains (py "true") (lower label_text)); [reflexivity|].
  destruct (str_eqb (lower label_text) (py "no")
            || contains (py "false") (lower label_text)); [reflexivity|].
  destruct (contains (py "iteration") (lower label_text)
            || contains (py "loop") (lower label_text)); reflexivity.
Qed.

Lemma edge_color_empty {rt : Runtime} : edge_color [] = gray.
Proof. unfold edge_color. run_ascii. Qed.

(** ** The guard of the button (lines 95-98) *)

Lemma lstrip_blank s : Forall (fun c => isspace c = true) s -> lstrip s = [].
Proof.
  induction 1 as [|c t Hc _ IH]; simpl; [reflexivity|]. now rewrite Hc.
Qed.

Lemma lstrip_nil_blank s : lstrip s = [] -> Forall (fun c => isspace c = true) s.
Proof.
  induction s as [|c t IH]; simpl; [constructor|].
  destruct (isspace c) eqn:E; [|discriminate].
  intro H. constructor; auto.
Qed.

Lemma lstrip_head s :
  lstrip s = [] \/ exists c t, lstrip s = c :: t /\ isspace c = false.
Proof.
  induction s as [|c t IH]; simpl; [now left|].
  destruct (isspace c) eqn:E; [exact IH|].
  right. now exists c, t.
Qed.

Lemma strip_blank_iff s :
  strip s = [] <-> Forall (fun c => isspace c = true) s.
Proof.
  unfold strip, rstrip. split.
  - intro H. apply lstrip_nil_blank.
    destruct (lstrip_head s) as [E|(c & t & E & Hc)]; [exact E|].
    exfalso.
    assert (K : lstrip (rev (lstrip s)) = []).
    { apply (f_equal (@rev _)) in H. rewrite rev_involutive in H. exact H. }
    apply lstrip_nil_blank in K. rewrite E in K.
    rewrite Forall_forall in K.
    specialize (K c). rewrite <- in_rev in K.
    rewrite K in Hc by now left. discriminate.
  - intro H. now rewrite (lstrip_blank H).
Qed.

(** C10: with an empty or all-blank code input the button shows the warning
    and does nothing else: no completion call, no extraction, no diagram. *)
Theorem blank_input_only_warns {rt : Runtime} {lim : Limits} {svc : Service}
        (code_input model_choice : str) :
  Forall (fun c => isspace c = true) code_input ->
  generate code_input model_choice = [StWarning PasteCodeFirst]
  /\ calls_service (generate code_input model_choice) = false
  /\ shows_diagram (generate code_input model_choice) = false.
Proof.
  intro H. apply strip_blank_iff in H.
  unfold generate. rewrite H. simpl. auto.
Qed.

Lemma blank_input_only_warns_witness :
  @generate ascii_runtime reference_limits
            (canned_service (inr (py "{}")) (inr (py "text")))
            (py "   ") (py "some-model")
  = [StWarning PasteCodeFirst].
Proof.
  apply (@blank_input_only_warns ascii_runtime reference_limits
           (canned_service (inr (py "{}")) (inr (py "text")))
           (py "   ") (py "some-model")).
  repeat constructor.
Defined.

(** ** The decoder *)

Lemma skip_ws_length s : length (skip_ws s) <= length s.
Proof.
  induction s as [|c t IH]; simpl; [lia|].
  destruct (is_ws c); simpl; lia.
Qed.

Lemma skip_ws_incl s c : In c (skip_ws s) -> In c s.
Proof.
  induction s as [|x t IH]; simpl; [tauto|].
  destruct (is_ws x); simpl; tauto.
Qed.

Lemma strip_prefix_length p s r :
  strip_prefix p s = Some r -> length s = length p + length r.
Proof.
  revert s. induction p as [|a p IH]; intros [|b s]; simpl; try discriminate.
  - intros [= <-]. reflexivity.
  - intros [= <-]. reflexivity.
  - destruct (a =? b)%N; [|discriminate]. intro H. rewrite (IH _ H). reflexivity.
Qed.

Lemma cons_char_some c r x rest :
  cons_char c r = Some (x, rest) ->
  exists x', r = Some (x', rest) /\ x = c :: x'.
Proof.
  destruct r as [[x' rest']|]; simpl; [|discriminate].
  intros [= <- <-]. now exists x'.
Qed.

Lemma scanstring_length s x r :
  scanstring s = Some (x, r) -> length r < length s.
Proof.
  remember (length s) as n eqn:En. revert s x r En.
  induction n as [n IH] using lt_wf_ind. intros s x r En.
  destruct s as [|c t]; [discriminate|]. simpl in En. subst n.
  assert (step : forall u (t' : str) x0,
             length t' <= length t ->
             cons_char u (scanstring t') = Some (x0, r) ->
             length r < S (length t)).
  { intros u t' x0 Hle H. apply cons_char_some in H as (x' & H & _).
    apply (IH (length t')) in H; [lia|lia|reflexivity]. }
  cbn [scanstring].
  destruct (c =? dquote)%N; [intros [= <- <-]; simpl; lia|].
  destruct (c =? backslash)%N.
  - destruct t as [|e t1]; [discriminate|].
    destruct (e =? letter_u)%N.
    + destruct t1 as [|h1 [|h2 [|h3 [|h4 t2]]]]; try discriminate.
      destruct (hex4 h1 h2 h3 h4) as [u|]; [|discriminate].
      destruct t2 as [|b [|l [|g1 [|g2 [|g3 [|g4 t3]]]]]];
        try (intro H; eapply step; [|exact H]; simpl; lia).
      destruct (is_high u && (b =? backslash)%N && (l =? letter_u)%N).
      * destruct (hex4 g1 g2 g3 g4) as [v|]; [|discriminate].
        destruct (is_low v); intro H; (eapply step; [|exact H]; simpl; lia).
      * intro H. eapply step; [|exact H]. simpl; lia.
    + destruct (unescape e); [|discriminate].
      intro H. eapply step; [|exact H]. simpl; lia.
  - destruct (c <? 32)%N; [discriminate|].
    intro H. eapply step; [|exact H]. lia.
Qed.

Lemma span_digits_length s d r :
  span_digits s = (d, r) -> length s = length d + length r.
Proof.
  revert d r. induction s as [|c t IH]; intros d r; simpl.
  - intros [= <- <-]. reflexivity.
  - destruct (is_digit c).
    + destruct (span_digits t) as [d' r'] eqn:E. intros [= <- <-].
      simpl. rewrite (IH _ _ eq_refl). reflexivity.
    + intros [= <- <-]. reflexivity.
Qed.

Lemma number_lexeme_length s neg int_ds frac exp r :
  number_lexeme s = Some (neg, int_ds, frac, exp, r) ->
  length r < length s /\ int_ds <> [].
Proof.
  unfold number_lexeme.
  destruct (match s with
            | c :: t => if (c =? minus)%N then (true, t) else (false, s)
            | [] => (false, s)
            end) as [neg0 s1] eqn:E1.
  assert (L1 : length s1 <= length s).
  { destruct s as [|c t]; [injection E1 as <- <-; lia|].
    destruct (c =? minus)%N; injection E1 as <- <-; simpl; lia. }
  destruct s1 as [|c t]; [discriminate|].
  destruct (is_digit c); [|discriminate].
  destruct (if (c =? zero)%N then ([c], t)
            else let (d, r0) := span_digits t in (c :: d, r0))
    as [int0 r1] eqn:E2.
  assert (L2 : length r1 <= length t /\ int0 <> []).
  { destruct (c =? zero)%N; [injection E2 as <- <-; split; [lia|discriminate]|].
    destruct (span_digits t) as [d r0] eqn:E. injection E2 as <- <-.
    apply span_digits_length in E. split; [lia|discriminate]. }
  destruct L2 as [L2 N2].
  destruct (match r1 with
            | p :: d :: r0 =>
                if (p =? dot)%N && is_digit d
                then let (ds, r') := span_digits r0 in (p :: d :: ds, r')
                else ([], r1)
            | _ => ([], r1)
            end) as [frac0 r2] eqn:E3.
  assert (L3 : length r2 <= length r1).
  { destruct r1 as [|p [|d r0]]; try (injection E3 as <- <-; lia).
    destruct ((p =? dot)%N && is_digit d); [|injection E3 as <- <-; lia].
    destruct (span_digits r0) as [ds r'] eqn:E. injection E3 as <- <-.
    apply span_digits_length in E. simpl. lia. }
  destruct (match r2 with
            | e :: r0 =>
                if ((e =? 101) || (e =? 69))%N
                then
                  let (sg, r') :=
                    match r0 with
                    | x :: r'' =>
                        if ((x =? minus) || (x =? plus))%N
                        then ([x], r'') else ([], r0)
                    | [] => ([], r0)
                    end in
                  let (ds, r'') := span_digits r' in
                  match ds with
                  | [] => ([], r2)
                  | _ :: _ => (e :: sg ++ ds, r'')
                  end
                else ([], r2)
            | [] => ([], r2)
            end) as [exp0 r3] eqn:E4.
  assert (L4 : length r3 <= length r2).
  { destruct r2 as [|e r0]; [injection E4 as <- <-; lia|].
    destruct ((e =? 101) || (e =? 69))%N; [|injection E4 as <- <-; lia].
    destruct (match r0 with
              | x :: r'' =>
                  if ((x =? minus) || (x =? plus))%N
                  then ([x], r'') else ([], r0)
              | [] => ([], r0)
              end) as [sg r'] eqn:E5.
    assert (length r' <= length r0).
    { destruct r0 as [|x r'']; [injection E5 as <- <-; lia|].
      destruct ((x =? minus) || (x =? plus))%N; injection E5 as <- <-;
        simpl; lia. }
    destruct (span_digits r') as [ds r''] eqn:E6.
    apply span_digits_length in E6.
    destruct ds; injection E4 as <- <-; simpl in *; lia. }
  simpl in L1. intros [= <- <- <- <- <-]. split; [lia|exact N2].
Qed.

Lemma match_number_spec limit s v r :
  match_number limit s = inr (v, r) -> is_number v /\ length r < length s.
Proof.
  unfold match_number.
  destruct (number_lexeme s) as [[[[[neg int_ds] frac] exp] r0]|] eqn:E;
    [|discriminate].
  apply number_lexeme_length in E as [E _].
  destruct frac, exp; try destruct (too_many_digits limit int_ds);
    try discriminate; intros [= <- <-]; simpl; split; trivial; lia.
Qed.

(** The exceptions of a number literal: [JSONDecodeError] where no number
    begins, [ValueError] for an integer literal over the digit limit. *)
Lemma match_number_raises limit s e :
  match_number limit s = inl e -> e = JSONDecodeError \/ e = ValueError.
Proof.
  unfold match_number.
  destruct (number_lexeme s) as [[[[[neg int_ds] frac] exp] r0]|];
    [|intros [= <-]; now left].
  destruct frac, exp; try destruct (too_many_digits limit int_ds);
    try discriminate; intros [= <-]; now right.
Qed.

Lemma literal_spec lit v s v' r :
  literal lit v s = Some (v', r) -> v' = v /\ length s = length lit + length r.
Proof.
  unfold literal. destruct (strip_prefix lit s) as [r'|] eqn:E; [|discriminate].
  intros [= <- <-]. split; [reflexivity|]. now apply strip_prefix_length.
Qed.

Lemma first_of_some {A} (a b : option A) x :
  first_of a b = Some x -> a = Some x \/ b = Some x.
Proof. destruct a; simpl; auto. Qed.

Lemma scan_literal_spec s v r :
  scan_literal s = Some (v, r) ->
  (forall d, v <> JObject d) /\ (forall l, v <> JArray l)
  /\ (forall x, v <> JString x) /\ length r < length s.
Proof.
  unfold scan_literal. intro H.
  repeat (apply first_of_some in H as [H|H];
          [apply literal_spec in H as [-> H]; simpl in H;
           repeat split; try discriminate; lia|]).
  apply literal_spec in H as [-> H]; simpl in H.
  repeat split; try discriminate; lia.
Qed.

(** What the scanner reads where no string, object or array begins: a literal
    or a number, and at least one character. *)
Lemma scan_atom_spec limit s v r :
  scan_atom limit s = inr (v, r) ->
  (forall d, v <> JObject d) /\ (forall l, v <> JArray l)
  /\ (forall x, v <> JString x) /\ length r < length s.
Proof.
  unfold scan_atom. destruct (scan_literal s) as [x|] eqn:E.
  - intros [= ->]. now apply scan_literal_spec.
  - intro H. apply match_number_spec in H as [Hn Hl].
    repeat split; try exact Hl; intros ? ->; exact Hn.
Qed.

Section Items.

Variable scan : str -> exn + (JSON * str).

Hypothesis scan_consumes :
  forall x v r, scan x = inr (v, r) -> length r <= length x.

Lemma array_items_length k s vs r :
  array_items scan k s = inr (vs, r) -> length r < length s.
Proof.
  revert s vs r. induction k as [|k IH]; intros s vs r; simpl; [discriminate|].
  destruct (scan s) as [e|[v r0]] eqn:E; [discriminate|].
  apply scan_consumes in E.
  pose proof (skip_ws_length r0) as L0.
  destruct (skip_ws r0) as [|c r1]; [discriminate|]. simpl in L0.
  destruct (c =? rbracket)%N; [intros [= <- <-]; lia|].
  destruct (c =? comma)%N; [|discriminate].
  destruct (array_items scan k (skip_ws r1)) as [e|[vs' r2]] eqn:E2;
    [discriminate|].
  intros [= <- <-]. apply IH in E2.
  pose proof (skip_ws_length r1). lia.
Qed.

(** The bound on the turns of the loops is never reached: any two bounds
    above the length of the text give the same result. *)
Lemma array_items_fuel k k' s :
  length s < k -> length s < k' ->
  array_items scan k s = array_items scan k' s.
Proof.
  revert k' s. induction k as [|k IH]; intros k' s Hk Hk'; [lia|].
  destruct k' as [|k']; [lia|]. simpl.
  destruct (scan s) as [e|[v r0]] eqn:E; [reflexivity|].
  apply scan_consumes in E.
  pose proof (skip_ws_length r0) as L0.
  destruct (skip_ws r0) as [|c r1]; [reflexivity|]. simpl in L0.
  destruct (c =? rbracket)%N; [reflexivity|].
  destruct (c =? comma)%N; [|reflexivity].
  pose proof (skip_ws_length r1).
  rewrite (IH k' (skip_ws r1)) by lia. reflexivity.
Qed.

Lemma object_items_length k s ps r :
  object_items scan k s = inr (ps, r) -> length r < length s.
Proof.
  revert s ps r. induction k as [|k IH]; intros s ps r; simpl; [discriminate|].
  destruct s as [|q t]; [discriminate|].
  destruct (q =? dquote)%N; [|discriminate].
  destruct (scanstring t) as [[key r0]|] eqn:E0; [|discriminate].
  apply scanstring_length in E0.
  pose proof (skip_ws_length r0) as L0.
  destruct (skip_ws r0) as [|c r1]; [discriminate|]. simpl in L0.
  destruct (c =? colon)%N; [|discriminate].
  pose proof (skip_ws_length r1) as L1.
  destruct (scan (skip_ws r1)) as [e|[v r2]] eqn:E2; [discriminate|].
  apply scan_consumes in E2.
  pose proof (skip_ws_length r2) as L2.
  destruct (skip_ws r2) as [|d r3]; [discriminate|]. simpl in L2.
  destruct (d =? rbrace)%N; [intros [= <- <-]; simpl; lia|].
  destruct (d =? comma)%N; [|discriminate].
  destruct (object_items scan k (skip_ws r3)) as [e|[ps' r4]] eqn:E4;
    [discriminate|].
  intros [= <- <-]. apply IH in E4.
  pose proof (skip_ws_length r3). simpl. lia.
Qed.

Lemma object_items_fuel k k' s :
  length s < k -> length s < k' ->
  object_items scan k s = object_items scan k' s.
Proof.
  revert k' s. induction k as [|k IH]; intros k' s Hk Hk'; [lia|].
  destruct k' as [|k']; [lia|]. simpl.
  destruct s as [|q t]; [reflexivity|]. simpl in *.
  destruct (q =? dquote)%N; [|reflexivity].
  destruct (scanstring t) as [[key r0]|] eqn:E0; [|reflexivity].
  apply scanstring_length in E0.
  pose proof (skip_ws_length r0) as L0.
  destruct (skip_ws r0) as [|c r1]; [reflexivity|]. simpl in L0.
  destruct (c =? colon)%N; [|reflexivity].
  pose proof (skip_ws_length r1) as L1.
  destruct (scan (skip_ws r1)) as [e|[v r2]] eqn:E2; [reflexivity|].
  apply scan_consumes in E2.
  pose proof (skip_ws_length r2) as L2.
  destruct (skip_ws r2) as [|d r3]; [reflexivity|]. simpl in L2.
  destruct (d =? rbrace)%N; [reflexivity|].
  destruct (d =? comma)%N; [|reflexivity].
  pose proof (skip_ws_length r3).
  rewrite (IH k' (skip_ws r3)) by lia. reflexivity.
Qed.

Lemma parse_array_length s v r :
  parse_array scan s = inr (v, r) ->
  (exists l, v = JArray l) /\ length r < length s.
Proof.
  unfold parse_array. pose proof (skip_ws_length s) as L.
  destruct (skip_ws s) as [|c r0] eqn:E; [discriminate|]. simpl in L.
  destruct (c =? rbracket)%N.
  - intros [= <- <-]. split; [now exists []|lia].
  - destruct (array_items scan (S (length s)) (c :: r0)) as [e|[vs r']] eqn:E';
      [discriminate|].
    intros [= <- <-]. apply array_items_length in E'. simpl in E'.
    split; [now exists vs|lia].
Qed.

Lemma parse_object_length s v r :
  parse_object scan s = inr (v, r) ->
  (exists d, v = JObject d) /\ length r < length s.
Proof.
  unfold parse_object. pose proof (skip_ws_length s) as L.
  destruct (skip_ws s) as [|c r0] eqn:E; [discriminate|]. simpl in L.
  destruct (c =? rbrace)%N.
  - intros [= <- <-]. split; [now exists []|lia].
  - destruct (object_items scan (S (length s)) (c :: r0)) as [e|[ps r']] eqn:E';
      [discriminate|].
    intros [= <- <-]. apply object_items_length in E'. simpl in E'.
    split; [now eexists|lia].
Qed.

End Items.

(** The scanner at a character, whatever the depth left. *)
Lemma scan_once_eq limit depth c t :
  scan_once limit depth (c :: t) =
  if (c =? dquote)%N then
    match scanstring t with
    | Some (x, r) => inr (JString x, r)
    | None => inl JSONDecodeError
    end
  else if (c =? lbrace)%N then
    match depth with
    | O => inl RecursionError
    | S d => parse_object (scan_once limit d) t
    end
  else if (c =? lbracket)%N then
    match depth with
    | O => inl RecursionError
    | S d => parse_array (scan_once limit d) t
    end
  else scan_atom limit (c :: t).
Proof. destruct depth; reflexivity. Qed.

(** Every value the scanner reads takes at least one character. *)
Lemma scan_once_length limit depth s v r :
  scan_once limit depth s = inr (v, r) -> length r < length s.
Proof.
  revert s v r.
  assert (G : forall depth s v r, (forall x v0 r0,
               match depth with
               | O => True
               | S d => scan_once limit d x = inr (v0, r0) ->
                        length r0 <= length x
               end) ->
             scan_once limit depth s = inr (v, r) -> length r < length s).
  { clear depth. intros depth s v r W.
    destruct s as [|c t]; [destruct depth; discriminate|].
    rewrite scan_once_eq.
    destruct (c =? dquote)%N.
    { destruct (scanstring t) as [[x r0]|] eqn:E; [|discriminate].
      intros [= <- <-]. apply scanstring_length in E. simpl. lia. }
    destruct (c =? lbrace)%N.
    { destruct depth as [|d]; [discriminate|].
      intro H. apply parse_object_length in H as [_ H]; [simpl; lia|].
      intros x v0 r0. apply (W x v0 r0). }
    destruct (c =? lbracket)%N.
    { destruct depth as [|d]; [discriminate|].
      intro H. apply parse_array_length in H as [_ H]; [simpl; lia|].
      intros x v0 r0. apply (W x v0 r0). }
    intro H. now apply scan_atom_spec in H as (_ & _ & _ & H). }
  induction depth as [|d IH]; intros s v r; apply G.
  - trivial.
  - intros x v0 r0 H. apply IH in H. lia.
Qed.

(** Only a text that begins, after white space, with an opening brace is
    read as an object. *)
Lemma scan_once_object limit depth s d r :
  scan_once limit depth s = inr (JObject d, r) ->
  exists t, s = lbrace :: t.
Proof.
  destruct s as [|c t]; [destruct depth; discriminate|].
  rewrite scan_once_eq.
  destruct (c =? dquote)%N.
  { destruct (scanstring t) as [[x r0]|]; discriminate. }
  destruct (c =? lbrace)%N eqn:Eb.
  { apply N.eqb_eq in Eb as ->. intros _. now exists t. }
  destruct (c =? lbracket)%N.
  { destruct depth as [|d0]; [discriminate|].
    intro H. apply parse_array_length in H as [[l H] _]; [discriminate|].
    intros x v0 r0 H0. apply scan_once_length in H0. lia. }
  intro H. apply scan_atom_spec in H as (H & _). now destruct (H d).
Qed.

Lemma json_loads_object {lim : Limits} s d :
  json_loads s = inr (JObject d) -> In lbrace s.
Proof.
  unfold json_loads. destruct (startswith [65279%N] s); [discriminate|].
  destruct (scan_once max_digits max_depth (skip_ws s)) as [e|[v r]] eqn:E;
    [discriminate|].
  destruct (skip_ws r); [|discriminate]. intros [= ->].
  apply scan_once_object in E as [t E].
  apply skip_ws_incl. rewrite E. now left.
Qed.

(** ** The encoder read back by the decoder *)

Lemma hexval_hexdigit d : (d < 16)%N -> hexval (hexdigit d) = Some d.
Proof.
  intro H. unfold hexdigit, hexval.
  destruct (N.ltb_spec d 10).
  - destruct (N.leb_spec 48 (48 + d)); [|lia].
    destruct (N.leb_spec (48 + d) 57); [|lia].
    cbn [andb]. f_equal. lia.
  - destruct (N.leb_spec 48 (87 + d)); [|lia].
    destruct (N.leb_spec (87 + d) 57); [lia|].
    destruct (N.leb_spec 97 (87 + d)); [|lia].
    destruct (N.leb_spec (87 + d) 102); [|lia].
    cbn [andb]. f_equal. lia.
Qed.

Lemma hex4_escape n :
  (n < 65536)%N ->
  hex4 (hexdigit (n / 4096)) (hexdigit ((n / 256) mod 16))
       (hexdigit ((n / 16) mod 16)) (hexdigit (n mod 16)) = Some n.
Proof.
  intro H. unfold hex4.
  rewrite !hexval_hexdigit;
    try (apply N.mod_upper_bound; discriminate);
    try (apply N.Div0.div_lt_upper_bound; exact H).
  f_equal.
  pose proof (N.div_mod n 16 ltac:(discriminate)) as E0.
  pose proof (N.div_mod (n / 16) 16 ltac:(discriminate)) as E1.
  pose proof (N.div_mod (n / 256) 16 ltac:(discriminate)) as E2.
  rewrite N.Div0.div_div in E1. change (16 * 16)%N with 256%N in E1.
  rewrite N.Div0.div_div in E2. change (256 * 16)%N with 4096%N in E2.
  assert (E3 : ((n / 4096) mod 16 = n / 4096)%N).
  { apply N.mod_small. apply N.Div0.div_lt_upper_bound. exact H. }
  lia.
Qed.

Lemma scanstring_plain c rest :
  (c =? dquote)%N = false -> (c =? backslash)%N = false ->
  (c <? 32)%N = false ->
  scanstring (c :: rest) = cons_char c (scanstring rest).
Proof.
  intros H1 H2 H3. cbn [scanstring]. now rewrite H1, H2, H3.
Qed.

Lemma scanstring_short e x rest :
  (e =? letter_u)%N = false -> unescape e = Some x ->
  scanstring (backslash :: e :: rest) = cons_char x (scanstring rest).
Proof.
  intros H1 H2. cbn [scanstring].
  change (backslash =? dquote)%N with false.
  change (backslash =? backslash)%N with true. cbv iota.
  now rewrite H1, H2.
Qed.

(** One [\u] escape is read as its own character unless it is a high
    surrogate and the escape of a low surrogate follows. *)
Lemma scanstring_u h1 h2 h3 h4 u rest :
  hex4 h1 h2 h3 h4 = Some u ->
  (is_high u = true ->
   forall g1 g2 g3 g4 t3,
     rest = backslash :: letter_u :: g1 :: g2 :: g3 :: g4 :: t3 ->
     exists v, hex4 g1 g2 g3 g4 = Some v /\ is_low v = false) ->
  scanstring (backslash :: letter_u :: h1 :: h2 :: h3 :: h4 :: rest)
  = cons_char u (scanstring rest).
Proof.
  intros H1 H2. cbn [scanstring].
  change (backslash =? dquote)%N with false.
  change (backslash =? backslash)%N with true.
  change (letter_u =? letter_u)%N with true. cbv iota.
  rewrite H1.
  destruct rest as [|b [|l [|g1 [|g2 [|g3 [|g4 t3]]]]]]; try reflexivity.
  destruct (is_high u); [|reflexivity]. cbn [andb].
  destruct (N.eqb_spec b backslash) as [->|]; [|reflexivity].
  destruct (N.eqb_spec l letter_u) as [->|]; [|reflexivity].
  cbn [andb].
  destruct (H2 eq_refl _ _ _ _ _ eq_refl) as (v & -> & ->). reflexivity.
Qed.

Lemma scanstring_pair h1 h2 h3 h4 g1 g2 g3 g4 u v rest :
  hex4 h1 h2 h3 h4 = Some u -> is_high u = true ->
  hex4 g1 g2 g3 g4 = Some v -> is_low v = true ->
  scanstring (backslash :: letter_u :: h1 :: h2 :: h3 :: h4
              :: backslash :: letter_u :: g1 :: g2 :: g3 :: g4 :: rest)
  = cons_char (join_surrogates u v) (scanstring rest).
Proof.
  intros H1 H2 H3 H4. cbn [scanstring].
  change (backslash =? dquote)%N with false.
  change (backslash =? backslash)%N with true.
  change (letter_u =? letter_u)%N with true. cbv iota.
  rewrite H1, H2. cbn [andb]. now rewrite H3, H4.
Qed.

(** What the encoder writes for a character that is no low surrogate never
    begins with the escape of a low surrogate. *)
Lemma escape_char_not_low c more g1 g2 g3 g4 t3 :
  (c <? 1114112)%N = true -> is_low c = false ->
  escape_char true c ++ more
  = backslash :: letter_u :: g1 :: g2 :: g3 :: g4 :: t3 ->
  exists v, hex4 g1 g2 g3 g4 = Some v /\ is_low v = false.
Proof.
  intros Hr Hl. unfold escape_char.
  destruct (N.eqb_spec c 92); [discriminate|].
  destruct (N.eqb_spec c 34); [discriminate|].
  destruct (N.eqb_spec c 8); [discriminate|].
  destruct (N.eqb_spec c 12); [discriminate|].
  destruct (N.eqb_spec c 10); [discriminate|].
  destruct (N.eqb_spec c 13); [discriminate|].
  destruct (N.eqb_spec c 9); [discriminate|].
  assert (U : forall n tail, (n < 65536)%N -> is_low n = false ->
                escape_u n ++ tail
                = backslash :: letter_u :: g1 :: g2 :: g3 :: g4 :: t3 ->
                exists v, hex4 g1 g2 g3 g4 = Some v /\ is_low v = false).
  { intros m tail Hn Hn' [= <- <- <- <- _]. exists m.
    split; [now apply hex4_escape|exact Hn']. }
  destruct (N.ltb_spec c 32) as [L|L].
  { apply U; [lia|exact Hl]. }
  destruct (N.leb_spec c 126) as [L'|L']; cbn [negb orb].
  { intros [= E _]. unfold backslash in E. congruence. }
  destruct (N.ltb_spec c 65536) as [B|B].
  { apply U; [lia|exact Hl]. }
  apply N.ltb_lt in Hr.
  assert (Q : ((c - 65536) / 1024 < 1024)%N).
  { apply N.Div0.div_lt_upper_bound. lia. }
  remember ((c - 65536) / 1024)%N as q eqn:Eq. clear Eq.
  rewrite <- app_assoc. apply U; [lia|].
  unfold is_low. destruct (N.leb_spec 56320 (55296 + q)); [lia|reflexivity].
Qed.

(** One escaped character is read back as that character, when no escaped
    low surrogate follows an escaped high one. *)
Lemma scanstring_escape_char ascii_only c rest :
  negb ascii_only || (c <? 1114112)%N = true ->
  (ascii_only = true -> is_high c = true ->
   forall g1 g2 g3 g4 t3,
     rest = backslash :: letter_u :: g1 :: g2 :: g3 :: g4 :: t3 ->
     exists v, hex4 g1 g2 g3 g4 = Some v /\ is_low v = false) ->
  scanstring (escape_char ascii_only c ++ rest)
  = cons_char c (scanstring rest).
Proof.
  intros Hc Hnext. unfold escape_char.
  destruct (N.eqb_spec c 92) as [->|N1]; [now apply scanstring_short|].
  destruct (N.eqb_spec c 34) as [->|N2]; [now apply scanstring_short|].
  destruct (N.eqb_spec c 8) as [->|N3]; [now apply scanstring_short|].
  destruct (N.eqb_spec c 12) as [->|N4]; [now apply scanstring_short|].
  destruct (N.eqb_spec c 10) as [->|N5]; [now apply scanstring_short|].
  destruct (N.eqb_spec c 13) as [->|N6]; [now apply scanstring_short|].
  destruct (N.eqb_spec c 9) as [->|N7]; [now apply scanstring_short|].
  assert (plain : (32 <= c)%N ->
                  scanstring ([c] ++ rest) = cons_char c (scanstring rest)).
  { intro H. apply scanstring_plain.
    - now apply N.eqb_neq.
    - now apply N.eqb_neq.
    - apply N.ltb_ge. exact H. }
  destruct (N.ltb_spec c 32) as [L|L].
  { apply scanstring_u.
    - apply hex4_escape. lia.
    - unfold is_high. destruct (N.leb_spec 55296 c); [lia|discriminate]. }
  destruct (N.leb_spec c 126) as [L'|L'].
  { now apply plain. }
  destruct ascii_only; cbn [negb orb] in *.
  2:{ now apply plain. }
  destruct (N.ltb_spec c 65536) as [B|B].
  { apply scanstring_u.
    - now apply hex4_escape.
    - intro Hh. now apply Hnext. }
  apply N.ltb_lt in Hc.
  pose proof (N.div_mod (c - 65536) 1024 ltac:(discriminate)) as E.
  assert (Q : ((c - 65536) / 1024 < 1024)%N).
  { apply N.Div0.div_lt_upper_bound. lia. }
  pose proof (N.mod_upper_bound (c - 65536) 1024 ltac:(discriminate)) as R.
  remember ((c - 65536) / 1024)%N as q eqn:Eq.
  remember ((c - 65536) mod 1024)%N as r eqn:Er.
  clear Eq Er.
  unfold escape_u at 1 2. cbn [app].
  rewrite scanstring_pair with (u := (55296 + q)%N) (v := (56320 + r)%N).
  - f_equal. unfold join_surrogates. lia.
  - apply hex4_escape. lia.
  - unfold is_high.
    destruct (N.leb_spec 55296 (55296 + q)); [|lia].
    destruct (N.leb_spec (55296 + q) 56319); [reflexivity|lia].
  - apply hex4_escape. lia.
  - unfold is_low.
    destruct (N.leb_spec 56320 (56320 + r)); [|lia].
    destruct (N.leb_spec (56320 + r) 57343); [reflexivity|lia].
Qed.

(** A string literal written by the encoder is read back as the string. *)
Lemma scanstring_encode ascii_only s rest :
  negb ascii_only || escapable s = true ->
  scanstring (flat_map (escape_char ascii_only) s ++ dquote :: rest)
  = Some (s, rest).
Proof.
  intro H. induction s as [|c s IH]; cbn [flat_map app].
  - cbn [scanstring]. reflexivity.
  - assert (Hs : negb ascii_only || escapable s = true).
    { destruct ascii_only; [|reflexivity]. cbn [negb orb] in *.
      unfold escapable in *. cbn [forallb unpaired] in H.
      apply andb_prop in H as [H1 H2].
      apply andb_prop in H1 as [_ H1]. apply andb_prop in H2 as [_ H2].
      now rewrite H1, H2. }
    rewrite <- app_assoc, scanstring_escape_char.
    + rewrite IH by exact Hs. reflexivity.
    + destruct ascii_only; [|reflexivity]. cbn [negb orb] in *.
      unfold escapable in H. cbn [forallb] in H.
      apply andb_prop in H as [H _]. now apply andb_prop in H as [H _].
    + intros -> Hh g1 g2 g3 g4 t3 E. cbn [negb orb] in H.
      unfold escapable in H. cbn [forallb unpaired] in H.
      apply andb_prop in H as [H1 H2].
      apply andb_prop in H1 as [_ H1]. apply andb_prop in H2 as [H2 _].
      rewrite Hh in H2. cbn [andb] in H2.
      destruct s as [|c' s'].
      * cbn [flat_map app] in E. discriminate E.
      * cbn [flat_map] in E. rewrite <- app_assoc in E.
        cbn [forallb] in H1. apply andb_prop in H1 as [H1 _].
        apply negb_true_iff in H2.
        exact (escape_char_not_low c' _ H1 H2 E).
Qed.

Lemma skip_ws_blank w rest : blank w = true -> skip_ws (w ++ rest) = skip_ws rest.
Proof.
  induction w as [|c w IH]; simpl; [reflexivity|].
  destruct (is_ws c); [exact IH|discriminate].
Qed.

Lemma dumps_head o v rest :
  printable (ensure_ascii o) v = true ->
  plain_head (json_dumps_with o v ++ rest).
Proof.
  destruct v as [| [|] | | | | |]; cbn [json_dumps_with printable];
    try discriminate; intros _; repeat split.
Qed.

Lemma skip_ws_head s : plain_head s -> skip_ws s = s.
Proof.
  destruct s as [|c t]; [contradiction|]. intros [H _]. simpl. now rewrite H.
Qed.

Lemma distinct_NoDup keys : distinct keys = true -> NoDup keys.
Proof.
  induction keys as [|k rest IH]; simpl; [constructor|].
  intro H. apply andb_prop in H as [H1 H2].
  constructor; [|now apply IH].
  intro K. apply negb_true_iff in H1.
  assert (existsb (str_eqb k) rest = true); [|congruence].
  apply existsb_exists. exists k. split; [exact K|apply str_eqb_refl].
Qed.

Lemma dict_set_fresh k v d :
  ~ In k (map fst d) -> dict_set k v d = d ++ [(k, v)].
Proof.
  induction d as [|[k' v'] d IH]; simpl; [reflexivity|].
  intro H. destruct (str_eqb k' k) eqn:E.
  - apply str_eqb_eq in E. tauto.
  - rewrite IH by tauto. reflexivity.
Qed.

Lemma dict_of_pairs_distinct ps :
  distinct (map fst ps) = true -> dict_of_pairs ps = ps.
Proof.
  intro H. apply distinct_NoDup in H. unfold dict_of_pairs.
  change ps with ([] ++ ps) at 2. change (map fst ps) with (map fst ([] ++ ps)) in H.
  generalize dependent (@nil (str * JSON)).
  induction ps as [|[k v] ps IH]; intros acc H; simpl.
  - now rewrite app_nil_r.
  - rewrite map_app in H. simpl in H.
    rewrite dict_set_fresh.
    2:{ apply NoDup_remove_2 in H. rewrite in_app_iff in H. tauto. }
    rewrite IH.
    + now rewrite <- app_assoc.
    + rewrite <- app_assoc. simpl. now rewrite map_app.
Qed.

(** Parts that are not empty make a text at least as long as their number. *)
Lemma join_length sep (parts : list str) :
  Forall (fun x => x <> []) parts -> length parts <= length (join sep parts).
Proof.
  induction 1 as [|x l Hx Hl IH]; [simpl; lia|].
  destruct l as [|y l'].
  - simpl. destruct x; [congruence|simpl; lia].
  - change (join sep (x :: y :: l')) with (x ++ sep ++ join sep (y :: l')).
    rewrite !length_app. destruct x; [congruence|]. simpl in *. lia.
Qed.

Section Members.

Variable o : dump_options.
Variable scan : str -> exn + (JSON * str).

Hypothesis o_ok : options_ok o = true.

Let sep : str := comma :: item_ws o.

Lemma item_ws_blank : blank (item_ws o) = true.
Proof. unfold options_ok in o_ok. now apply andb_prop in o_ok as [? _]. Qed.

Lemma key_ws_blank : blank (key_ws o) = true.
Proof. unfold options_ok in o_ok. now apply andb_prop in o_ok as [_ ?]. Qed.

Lemma array_items_join items k rest :
  (forall v, In v items ->
             printable (ensure_ascii o) v = true
             /\ forall r, scan (json_dumps_with o v ++ r) = inr (v, r)) ->
  items <> [] -> length items <= k ->
  array_items scan k
    (join sep (map (json_dumps_with o) items) ++ rbracket :: rest)
  = inr (items, rest).
Proof.
  revert k. induction items as [|v l IH]; intros k Hall Hne Hk; [congruence|].
  destruct k as [|k]; [simpl in Hk; lia|].
  destruct (Hall v (or_introl eq_refl)) as [_ Hv].
  destruct l as [|v' l'].
  - cbn [map join array_items]. rewrite Hv.
    cbn [skip_ws]. change (is_ws rbracket) with false. cbv iota.
    change (rbracket =? rbracket)%N with true. reflexivity.
  - change (join sep (map (json_dumps_with o) (v :: v' :: l')))
      with (json_dumps_with o v
            ++ sep ++ join sep (map (json_dumps_with o) (v' :: l'))).
    cbn [array_items]. rewrite <- !app_assoc, Hv.
    unfold sep at 1. cbn [app skip_ws].
    change (is_ws comma) with false. cbv iota.
    change (comma =? rbracket)%N with false.
    change (comma =? comma)%N with true. cbv iota.
    rewrite skip_ws_blank by apply item_ws_blank.
    assert (P : plain_head (join sep (map (json_dumps_with o) (v' :: l'))
                            ++ rbracket :: rest)).
    { destruct (Hall v' (or_intror (or_introl eq_refl))) as [Hp _].
      destruct l' as [|v'' l'']; cbn [map join].
      - now apply dumps_head.
      - rewrite <- app_assoc. now apply dumps_head. }
    rewrite (skip_ws_head _ P).
    rewrite IH.
    + reflexivity.
    + intros x Hx. apply Hall. now right.
    + discriminate.
    + simpl in *. lia.
Qed.

Lemma object_items_join members k rest :
  (forall kv, In kv members ->
              negb (ensure_ascii o) || escapable (fst kv) = true
              /\ printable (ensure_ascii o) (snd kv) = true
              /\ forall r, scan (json_dumps_with o (snd kv) ++ r)
                           = inr (snd kv, r)) ->
  members <> [] -> length members <= k ->
  object_items scan k (join sep (map (member_text o) members) ++ rbrace :: rest)
  = inr (members, rest).
Proof.
  revert k. induction members as [|[key v] l IH]; intros k Hall Hne Hk;
    [congruence|].
  destruct k as [|k]; [simpl in Hk; lia|].
  destruct (Hall (key, v) (or_introl eq_refl)) as (Hkey & Hp & Hv).
  cbn [fst snd] in Hkey, Hp, Hv.
  assert (step : forall tail tail',
             skip_ws tail = tail' ->
             object_items scan (S k) (member_text o (key, v) ++ tail)
             = match tail' with
               | [] => inl JSONDecodeError
               | d :: r3 =>
                   if (d =? rbrace)%N then inr ([(key, v)], r3)
                   else if (d =? comma)%N then
                     match object_items scan k (skip_ws r3) with
                     | inr (ps, r4) => inr ((key, v) :: ps, r4)
                     | inl e => inl e
                     end
                   else inl JSONDecodeError
               end).
  { intros tail tail' <-. unfold member_text, encode_string. cbn [fst snd].
    cbn [app object_items].
    change (dquote =? dquote)%N with true. cbv iota.
    rewrite <- !app_assoc. cbn [app].
    rewrite scanstring_encode by assumption.
    cbn [skip_ws]. change (is_ws colon) with false. cbv iota.
    change (colon =? colon)%N with true. cbv iota.
    rewrite <- app_assoc.
    rewrite skip_ws_blank by apply key_ws_blank.
    rewrite skip_ws_head by now apply dumps_head.
    rewrite Hv. reflexivity. }
  destruct l as [|kv' l'].
  - cbn [map join]. rewrite (step _ (rbrace :: rest)) by reflexivity.
    change (rbrace =? rbrace)%N with true. reflexivity.
  - change (join sep (map (member_text o) ((key, v) :: kv' :: l')))
      with (member_text o (key, v)
            ++ sep ++ join sep (map (member_text o) (kv' :: l'))).
    rewrite <- !app_assoc.
    rewrite (step _ (sep ++ join sep (map (member_text o) (kv' :: l'))
                         ++ rbrace :: rest)) by reflexivity.
    unfold sep at 1. cbn [app].
    change (comma =? rbrace)%N with false.
    change (comma =? comma)%N with true. cbv iota.
    rewrite skip_ws_blank by apply item_ws_blank.
    assert (P : plain_head (join sep (map (member_text o) (kv' :: l'))
                            ++ rbrace :: rest)).
    { destruct l' as [|kv'' l'']; cbn [map join]; repeat split. }
    rewrite (skip_ws_head _ P).
    rewrite IH.
    + reflexivity.
    + intros x Hx. apply Hall. now right.
    + discriminate.
    + simpl in *. lia.
Qed.

End Members.

Lemma nesting_items items depth x :
  list_max (map nesting items) <= depth -> In x items -> nesting x <= depth.
Proof.
  intros H Hx. apply list_max_le in H. rewrite Forall_forall in H.
  apply H. now apply in_map.
Qed.

Lemma nesting_members (members : list (str * JSON)) depth kv :
  list_max (map (fun kv => nesting (snd kv)) members) <= depth ->
  In kv members -> nesting (snd kv) <= depth.
Proof.
  intros H Hx. apply list_max_le in H. rewrite Forall_forall in H.
  apply H. now apply (in_map (fun kv => nesting (snd kv))).
Qed.

(** An encoded value without numbers is read back as itself, whatever
    follows it, when the decoder may open as many containers as the value
    nests. *)
Lemma scan_once_dumps limit o :
  options_ok o = true ->
  forall depth v rest,
    nesting v <= depth -> printable (ensure_ascii o) v = true ->
    scan_once limit depth (json_dumps_with o v ++ rest) = inr (v, rest).
Proof.
  intro Ho.
  assert (Atom : forall depth v rest,
             nesting v = 0 -> printable (ensure_ascii o) v = true ->
             scan_once limit depth (json_dumps_with o v ++ rest)
             = inr (v, rest)).
  { intros depth v rest Hn Hp.
    destruct v as [| [|] | z | l | s | items | members];
      try discriminate Hp; try discriminate Hn;
      try (destruct depth; reflexivity).
    cbn [json_dumps_with encode_string app]. rewrite scan_once_eq.
    change (dquote =? dquote)%N with true. cbv iota.
    rewrite <- app_assoc. cbn [app].
    cbn [printable] in Hp. now rewrite scanstring_encode. }
  induction depth as [|n IH]; intros v rest Hn Hp.
  { apply Atom; [lia|exact Hp]. }
  destruct v as [| [|] | z | l | s | items | members];
    try (apply Atom; [reflexivity|exact Hp]).
  - (* array *)
    cbn [json_dumps_with app scan_once].
    change (lbracket =? dquote)%N with false.
    change (lbracket =? lbrace)%N with false.
    change (lbracket =? lbracket)%N with true. cbv iota.
    rewrite <- app_assoc. cbn [app]. unfold parse_array.
    cbn [printable] in Hp. rewrite forallb_forall in Hp.
    cbn [nesting] in Hn. apply le_S_n in Hn.
    destruct items as [|v l].
    + reflexivity.
    + assert (P : plain_head
                    (join (comma :: item_ws o)
                          (map (json_dumps_with o) (v :: l))
                     ++ rbracket :: rest)).
      { destruct l as [|v' l']; cbn [map join].
        - apply dumps_head. apply Hp. now left.
        - rewrite <- app_assoc. apply dumps_head. apply Hp. now left. }
      rewrite (skip_ws_head _ P).
      assert (L : length (v :: l)
                  <= S (length (join (comma :: item_ws o)
                                     (map (json_dumps_with o) (v :: l))
                                ++ rbracket :: rest))).
      { rewrite length_app.
        pose proof (@join_length (comma :: item_ws o)
                      (map (json_dumps_with o) (v :: l))) as J.
        rewrite length_map in J.
        assert (F : Forall (fun x : str => x <> [])
                           (map (json_dumps_with o) (v :: l))).
        { apply Forall_forall. intros x Hx. apply in_map_iff in Hx as (y & <- & Hy).
          pose proof (@dumps_head o y [] (Hp y Hy)) as Q.
          rewrite app_nil_r in Q. intro E. rewrite E in Q. exact Q. }
        specialize (J F). lia. }
      destruct (join (comma :: item_ws o) (map (json_dumps_with o) (v :: l))
                ++ rbracket :: rest) as [|c t] eqn:E; [contradiction|].
      destruct P as (_ & -> & _). rewrite <- E.
      rewrite (@array_items_join o (scan_once limit n) Ho (v :: l) _ rest).
      * reflexivity.
      * intros x Hx. split; [now apply Hp|].
        intro r. apply IH; [|now apply Hp].
        eapply nesting_items; eassumption.
      * discriminate.
      * rewrite <- E in L. exact L.
  - (* object *)
    cbn [json_dumps_with app scan_once].
    change (lbrace =? dquote)%N with false.
    change (lbrace =? lbrace)%N with true. cbv iota.
    rewrite <- app_assoc. cbn [app]. unfold parse_object.
    cbn [printable] in Hp. apply andb_prop in Hp as [Hd Hp].
    rewrite forallb_forall in Hp. cbn [nesting] in Hn. apply le_S_n in Hn.
    destruct members as [|kv l].
    + reflexivity.
    + change (fun kv0 : str * JSON =>
                encode_string (ensure_ascii o) (fst kv0)
                ++ colon :: key_ws o ++ json_dumps_with o (snd kv0))
        with (member_text o).
      match goal with
      | |- context [skip_ws ?x] => assert (P : plain_head x)
      end.
      { destruct l as [|kv' l']; cbn [map join]; repeat split. }
      rewrite (skip_ws_head _ P).
      assert (L : length (kv :: l)
                  <= S (length (join (comma :: item_ws o)
                                     (map (member_text o) (kv :: l))
                                ++ rbrace :: rest))).
      { rewrite length_app.
        pose proof (@join_length (comma :: item_ws o)
                      (map (member_text o) (kv :: l))) as J.
        rewrite length_map in J.
        assert (F : Forall (fun x : str => x <> [])
                           (map (member_text o) (kv :: l))).
        { apply Forall_forall. intros x Hx. apply in_map_iff in Hx as (y & <- & Hy).
          discriminate. }
        specialize (J F). lia. }
      match goal with
      | |- match ?x with _ => _ end = _ =>
          destruct x as [|c t] eqn:E; [contradiction|]
      end.
      destruct P as (_ & _ & -> & _). rewrite <- E.
      pose proof (fun k => @object_items_join o (scan_once limit n) Ho
                             (kv :: l) k rest) as OJ.
      unfold str in *. rewrite OJ; clear OJ.
      * now rewrite dict_of_pairs_distinct.
      * intros x Hx. specialize (Hp x Hx). apply andb_prop in Hp as [H1 H2].
        split; [exact H1|]. split; [exact H2|].
        intro r. apply IH; [|exact H2].
        eapply nesting_members; eassumption.
      * discriminate.
      * exact L.
Qed.

(** [json.loads(json.dumps(v)) == v] for values without numbers that nest
    no deeper than the decoder may recurse. *)
Lemma json_loads_dumps {lim : Limits} o v :
  options_ok o = true -> printable (ensure_ascii o) v = true ->
  nesting v <= max_depth ->
  json_loads (json_dumps_with o v) = inr v.
Proof.
  intros Ho Hp Hn. unfold json_loads.
  pose proof (@dumps_head o v [] Hp) as P. rewrite app_nil_r in P.
  rewrite (skip_ws_head _ P).
  pose proof (@scan_once_dumps max_digits o Ho max_depth v [] Hn Hp) as R.
  rewrite app_nil_r in R. rewrite R.
  destruct (json_dumps_with o v) as [|c t]; [contradiction|].
  destruct P as (_ & _ & _ & P). cbn [startswith skip_ws].
  rewrite N.eqb_sym, P. reflexivity.
Qed.

(** ** Extraction (lines 207-228) *)

Lemma json_string_object o members :
  json_string (json_dumps_with o (JObject members))
  = json_dumps_with o (JObject members).
Proof.
  cbn [json_dumps_with].
  apply (@json_string_between [] _ []); simpl; tauto.
Qed.

Lemma forallb_over_map {A B} (f : B -> bool) (h : A -> B) (l : list A) :
  forallb f (map h l) = forallb (fun x => f (h x)) l.
Proof. induction l as [|x l IH]; simpl; [reflexivity|]. now rewrite IH. Qed.

Lemma escapable_or a (s : str) : escapable s = true -> negb a || escapable s = true.
Proof. intros ->. apply orb_true_r. Qed.

Lemma graph_json_printable a g :
  (a = true -> escapable_graph g = true) -> printable a (graph_json g) = true.
Proof.
  intro H.
  assert (T : forall s, (a = true -> escapable s = true) ->
                        negb a || escapable s = true).
  { intros s Hs. destruct a; [now apply Hs|reflexivity]. }
  assert (N : a = true ->
              forallb (fun n => escapable (node_id n) && escapable (node_label n))
                      (nodes g) = true).
  { intro Ha. specialize (H Ha). unfold escapable_graph in H.
    now apply andb_prop in H as [H _]. }
  assert (E : a = true ->
              forallb (fun e => escapable (edge_from e) && escapable (edge_to e)
                                && match edge_label e with
                                   | Some l => escapable l
                                   | None => true
                                   end) (edges g) = true).
  { intro Ha. specialize (H Ha). unfold escapable_graph in H.
    now apply andb_prop in H as [_ H]. }
  clear H. unfold graph_json. cbn [printable map fst snd forallb].
  rewrite (@escapable_or a (py "nodes")), (@escapable_or a (py "edges"))
    by reflexivity.
  rewrite !forallb_over_map.
  replace (distinct [py "nodes"; py "edges"]) with true by reflexivity.
  cbn [andb]. rewrite andb_true_r. apply andb_true_intro. split.
  - apply forallb_forall. intros n Hn. unfold node_json.
    cbn [printable map fst snd forallb].
    rewrite (@escapable_or a (py "id")), (@escapable_or a (py "label"))
      by reflexivity.
    replace (distinct [py "id"; py "label"]) with true by reflexivity.
    cbn [andb]. rewrite andb_true_r.
    apply andb_true_intro; split; apply T; intro Ha; specialize (N Ha);
      rewrite forallb_forall in N; specialize (N n Hn);
      apply andb_prop in N; tauto.
  - apply forallb_forall. intros e He. unfold edge_json.
    assert (K : a = true ->
                escapable (edge_from e) = true /\ escapable (edge_to e) = true
                /\ match edge_label e with
                   | Some l => escapable l
                   | None => true
                   end = true).
    { intro Ha. specialize (E Ha). rewrite forallb_forall in E.
      specialize (E e He). apply andb_prop in E as [E E3].
      apply andb_prop in E as [E1 E2]. auto. }
    destruct (edge_label e) as [l|]; cbn [app printable map fst snd forallb];
      rewrite (@escapable_or a (py "from")), (@escapable_or a (py "to"))
        by reflexivity.
    + rewrite (@escapable_or a (py "label")) by reflexivity.
      replace (distinct [py "from"; py "to"; py "label"]) with true
        by reflexivity.
      cbn [andb]. rewrite andb_true_r.
      repeat (apply andb_true_intro; split); apply T; intro Ha;
        now destruct (K Ha) as (? & ? & ?).
    + replace (distinct [py "from"; py "to"] ) with true by reflexivity.
      cbn [andb]. rewrite andb_true_r.
      repeat (apply andb_true_intro; split); apply T; intro Ha;
        now destruct (K Ha) as (? & ? & ?).
Qed.

(** A graph nests three deep: the graph, its two lists, their entries. *)
Lemma graph_json_nesting g : nesting (graph_json g) <= 3.
Proof.
  unfold graph_json. cbn [nesting map snd].
  assert (N : list_max (map nesting (map node_json (nodes g))) <= 1).
  { apply list_max_le, Forall_forall. intros x Hx.
    apply in_map_iff in Hx as (y & <- & Hy).
    apply in_map_iff in Hy as (n & <- & _). simpl. lia. }
  assert (E : list_max (map nesting (map edge_json (edges g))) <= 1).
  { apply list_max_le, Forall_forall. intros x Hx.
    apply in_map_iff in Hx as (y & <- & Hy).
    apply in_map_iff in Hy as (e & <- & _). unfold edge_json.
    destruct (edge_label e); simpl; lia. }
  apply le_n_S, list_max_le.
  constructor; [lia|constructor; [lia|constructor]].
Qed.

(** Any dict without numbers that has the two keys is extracted from its
    serialization as it is. *)
Lemma object_round_trip {lim : Limits} (o : dump_options)
      (d : list (str * JSON)) :
  options_ok o = true ->
  printable (ensure_ascii o) (JObject d) = true ->
  nesting (JObject d) <= max_depth ->
  dict_has (py "nodes") d = true -> dict_has (py "edges") d = true ->
  extractGraph (json_dumps_with o (JObject d)) = Graph (JObject d).
Proof.
  intros Ho Hp Hd Hn He. unfold extractGraph.
  rewrite json_string_object, json_loads_dumps by assumption.
  cbn [py_in]. now rewrite Hn, He.
Qed.

(** C7, as the claim words it, fails: [json.dumps] writes a high surrogate
    directly followed by a low one as two escapes, and [json.loads] reads
    the two escapes as one character, so the graph extracted from the
    serialization of a graph with the node id [U+D83D U+DE00] has the id
    [U+1F600]. *)
Lemma surrogate_pair_joined :
  ~ (forall g : FlowGraph,
        @extractGraph reference_limits (json_dumps (graph_json g))
        = Graph (graph_json g)).
Proof.
  intro H.
  specialize (H {| nodes := [ {| node_id := [55357; 56832]%N;
                                 node_label := py "Start" |} ];
                   edges := [] |}).
  vm_compute in H. discriminate H.
Qed.

(** C7, amended: the serialization of a graph is extracted as that graph
    when the decoder may nest three deep and, if the encoder escapes
    everything outside ASCII as [json.dumps] does by default, no string of
    the graph holds a high surrogate directly before a low one.  The
    encoder may write any blanks after commas and colons. *)
Theorem graph_round_trip {lim : Limits} (o : dump_options) (g : FlowGraph) :
  options_ok o = true ->
  3 <= max_depth ->
  (ensure_ascii o = true -> escapable_graph g = true) ->
  extractGraph (json_dumps_with o (graph_json g)) = Graph (graph_json g).
Proof.
  intros Ho Hd Hg. unfold graph_json.
  apply object_round_trip; trivial.
  - now apply (@graph_json_printable (ensure_ascii o) g).
  - pose proof (graph_json_nesting g) as N. unfold graph_json in N. lia.
Qed.

Lemma graph_round_trip_witness :
  let g := {| nodes := [ {| node_id := py "A"; node_label := py "Start: f(n)" |};
                         {| node_id := [56832; 55357]%N;
                            node_label := py "Return 1" |} ];
              edges := [ {| edge_from := py "A"; edge_to := [56832; 55357]%N;
                            edge_label := None |} ] |} in
  @extractGraph reference_limits (json_dumps (graph_json g))
  = Graph (graph_json g).
Proof.
  intro g.
  apply (@graph_round_trip reference_limits default_options g);
    [reflexivity|vm_compute; lia|reflexivity].
Defined.

(** The decoder on some texts: duplicate keys, escapes and surrogate pairs,
    the errors of the grammar, and the two limits. *)
Example loads_samples :
  let loads := @json_loads reference_limits in
  loads (pyq " {'a': [1, -0, true, null, 'x\n'], 'a': {}} ")
  = inr (JObject [(py "a", JObject [])])
  /\ loads (pyq "[1, 2.5e3, 'A\ud83d\ude00', '\ude00\ud83d']")
     = inr (JArray [JInt 1; JFloat (py "2.5e3");
                    JString [65%N; 128512%N]; JString [56832%N; 55357%N]])
  /\ loads (pyq "[1,]") = inl JSONDecodeError
  /\ loads (pyq "{'a': 1,}") = inl JSONDecodeError
  /\ loads (pyq "01") = inl JSONDecodeError
  /\ loads (pyq "1e+") = inl JSONDecodeError
  /\ loads (pyq "{'a': 'unterminated}") = inl JSONDecodeError
  /\ loads (pyq "{} trailing") = inl JSONDecodeError
  /\ loads [] = inl JSONDecodeError
  /\ loads (pyq "'nodes and edges'") = inr (JString (py "nodes and edges"))
  /\ loads (repeat lbracket 1000) = inl RecursionError
  /\ loads (repeat lbracket 1000 ++ repeat rbracket 1000) = inl RecursionError
  /\ loads (repeat lbracket 3) = inl JSONDecodeError
  /\ loads (repeat 49%N 4301) = inl ValueError
  /\ loads (pyq "{'nodes': " ++ repeat 49%N 4301 ++ pyq "}") = inl ValueError
  /\ loads (repeat 49%N 4301 ++ py ".5")
     = inr (JFloat (repeat 49%N 4301 ++ py ".5")).
Proof. vm_compute. repeat split. Qed.

(** [json.dumps] on a graph, and the compact form. *)
Example dumps_samples :
  let g := {| nodes := [ {| node_id := py "A"; node_label := [233%N; 10%N] |} ];
              edges := [ {| edge_from := py "A"; edge_to := py "B";
                            edge_label := Some (pyq "'Yes'") |} ] |} in
  json_dumps (graph_json g)
  = pyq "{'nodes': [{'id': 'A', 'label': '\u00e9\n'}], 'edges': [{'from': 'A', 'to': 'B', 'label': '\'Yes\''}]}"
  /\ json_dumps_with compact_options (graph_json g)
     = pyq "{'nodes':[{'id':'A','label':'"
       ++ [233%N; 92%N; 110%N]
       ++ pyq "'}],'edges':[{'from':'A','to':'B','label':'\'Yes\''}]}".
Proof. vm_compute. split; reflexivity. Qed.

Lemma render_not_object {rt : Runtime} (v : JSON) :
  (forall d, v <> JObject d) -> render v = inl TypeError.
Proof.
  intro H. destruct v; try reflexivity. now elim (H members).
Qed.

Lemma show_raw_no_diagram raw m :
  shows_diagram (StError m :: show_raw raw) = false.
Proof. unfold show_raw. now destruct (encodable raw). Qed.


(** C3, as the claim words it, fails: [[]] holds no brace and is valid
    JSON, so the decoder accepts it and the check of the keys reports the
    missing field. *)
Lemma bracket_text_missing_field :
  ~ (forall raw : str,
        ~ In lbrace raw -> ~ In rbrace raw ->
        @extractGraph reference_limits raw = MalformedOutput raw).
Proof.
  intro H. specialize (H (py "[]")).
  assert (K : @extractGraph reference_limits (py "[]") = MalformedOutput (py "[]")).
  { apply H; vm_compute; intuition discriminate. }
  vm_compute in K. discriminate K.
Qed.

(** C3, amended: for a text without braces the candidate is the whole
    text; extraction fails with MalformedOutput exactly when [json.loads]
    raises [JSONDecodeError] on the text; the text is never read as a dict,
    extraction never yields one, and no diagram is shown. *)
Theorem no_brace_never_renders {rt : Runtime} {lim : Limits}
        (raw explanation : str) :
  ~ In lbrace raw -> ~ In rbrace raw ->
  json_string raw = raw
  /\ (extractGraph raw = MalformedOutput raw
      <-> json_loads raw = inl JSONDecodeError)
  /\ (forall d, json_loads raw <> inr (JObject d))
  /\ (forall d, extractGraph raw <> Graph (JObject d))
  /\ shows_diagram (present raw explanation) = false.
Proof.
  intros Hl Hr.
  assert (J : json_string raw = raw) by (apply json_string_no_brace; now left).
  assert (O : forall d, json_loads raw <> inr (JObject d)).
  { intros d K. apply json_loads_object in K. contradiction. }
  split; [exact J|]. split; [|split; [exact O|split]].
  - unfold extractGraph. rewrite J.
    destruct (json_loads raw) as [e|v].
    + destruct e; split; intro H; try discriminate H; reflexivity.
    + split; [|discriminate].
      destruct (py_in (py "nodes") v) as [?|[|]]; try discriminate.
      destruct (py_in (py "edges") v) as [?|[|]]; discriminate.
  - intros d. unfold extractGraph. rewrite J.
    destruct (json_loads raw) as [e|v] eqn:E.
    + destruct e; discriminate.
    + destruct (py_in (py "nodes") v) as [?|[|]]; try discriminate.
      destruct (py_in (py "edges") v) as [?|[|]]; try discriminate.
      intros [= ->]. now elim (O d).
  - unfold present, extractGraph. rewrite J.
    destruct (json_loads raw) as [e|v] eqn:E.
    + destruct e; try reflexivity. apply show_raw_no_diagram.
    + assert (R : render v = inl TypeError).
      { apply render_not_object. intros d ->. now elim (O d). }
      destruct (py_in (py "nodes") v) as [?|[|]]; try reflexivity;
        try apply show_raw_no_diagram.
      destruct (py_in (py "edges") v) as [?|[|]]; try reflexivity;
        try apply show_raw_no_diagram.
      now rewrite R.
Qed.

Lemma no_brace_never_renders_witness :
  @extractGraph reference_limits (py "Sorry, I cannot help")
  = MalformedOutput (py "Sorry, I cannot help").
Proof.
  apply (@no_brace_never_renders ascii_runtime reference_limits
           (py "Sorry, I cannot help") []).
  - vm_compute; intuition discriminate.
  - vm_compute; intuition discriminate.
  - reflexivity.
Defined.

(** What line 219 does not catch.  A reply that opens more arrays than the
    decoder may nest makes [json.loads] raise [RecursionError]: extraction
    does not fail with MalformedOutput, and the page shows the generic error
    alone.  So does any exception of [json.loads] other than
    [JSONDecodeError]. *)
Lemma uncaught_parse_failure {rt : Runtime} {lim : Limits}
      (raw explanation : str) (e : exn) :
  json_loads (json_string raw) = inl e -> e <> JSONDecodeError ->
  extractGraph raw = Raised e
  /\ present raw explanation = [StError (GenerationFailed e)].
Proof.
  intros Hj He.
  assert (E : extractGraph raw = Raised e).
  { unfold extractGraph. rewrite Hj. destruct e; congruence. }
  split; [exact E|]. unfold present. now rewrite E.
Qed.

(** A text that cannot be encoded is not shown: [st.code] raises inside the
    handler and the generic error follows the first message. *)
Lemma unencodable_text_not_shown {rt : Runtime} {lim : Limits}
      (raw explanation : str) :
  encodable raw = false ->
  (extractGraph raw = MalformedOutput raw ->
   present raw explanation
   = [StError NoValidJson; StError (GenerationFailed UnicodeEncodeError)])
  /\ (extractGraph raw = MissingField raw ->
      present raw explanation
      = [StError MissingNodesOrEdges;
         StError (GenerationFailed UnicodeEncodeError)]).
Proof.
  intro X. split; intro E; unfold present, show_raw; now rewrite E, X.
Qed.




(** C5, as the claim words it, fails: the text [42] is valid JSON and the
    parsed value has neither key, yet the membership test raises and the
    outcome is the generic error, not MissingField. *)
Lemma number_text_raises :
  ~ (forall (raw : str) (v : JSON),
        @json_loads reference_limits (json_string raw) = inr v ->
        has_key (py "nodes") v = false \/ has_key (py "edges") v = false ->
        @extractGraph reference_limits raw = MissingField raw).
Proof.
  intro H. specialize (H (py "42") (JInt 42) eq_refl (or_introl eq_refl)).
  vm_compute in H. discriminate H.
Qed.

(** C5, amended: when the candidate parses to a dict that lacks [nodes] or
    [edges], extraction fails with MissingField, no diagram is shown, and
    the page shows the error and the text, if the text can be encoded; when
    the dict has both keys, whatever their values, it is accepted as it
    is. *)
Theorem dict_key_check {rt : Runtime} {lim : Limits} (raw explanation : str)
        (d : list (str * JSON)) :
  json_loads (json_string raw) = inr (JObject d) ->
  (dict_has (py "nodes") d = false \/ dict_has (py "edges") d = false ->
   extractGraph raw = MissingField raw
   /\ shows_diagram (present raw explanation) = false
   /\ (encodable raw = true ->
       present raw explanation
       = [StError MissingNodesOrEdges; StCode raw; StStop]))
  /\ (forall vn ve,
         dict_get (py "nodes") d = Some vn ->
         dict_get (py "edges") d = Some ve ->
         extractGraph raw = Graph (JObject d)).
Proof.
  intro Hj. split.
  - intro H.
    assert (E : extractGraph raw = MissingField raw).
    { unfold extractGraph. rewrite Hj. cbn [py_in].
      destruct H as [-> | ->]; [reflexivity|].
      destruct (dict_has (py "nodes") d); reflexivity. }
    split; [exact E|]. unfold present. rewrite E.
    split; [apply show_raw_no_diagram|].
    unfold show_raw. now intros ->.
  - intros vn ve Hn He. unfold extractGraph. rewrite Hj. cbn [py_in].
    unfold dict_has. now rewrite Hn, He.
Qed.

Lemma dict_key_check_witness :
  @present ascii_runtime reference_limits (pyq "{'nodes': []}") []
  = [StError MissingNodesOrEdges; StCode (pyq "{'nodes': []}"); StStop]
  /\ @extractGraph reference_limits (pyq "{'nodes': 1, 'edges': null}")
     = Graph (JObject [(py "nodes", JInt 1); (py "edges", JNull)]).
Proof.
  split.
  - apply (proj1 (@dict_key_check ascii_runtime reference_limits
                    (pyq "{'nodes': []}") []
                    [(py "nodes", JArray [])] eq_refl)).
    + right. reflexivity.
    + reflexivity.
  - apply (proj2 (@dict_key_check ascii_runtime reference_limits
                    (pyq "{'nodes': 1, 'edges': null}") []
                    [(py "nodes", JInt 1); (py "edges", JNull)] eq_refl)
             (JInt 1) JNull); reflexivity.
Defined.

(** ** Rendering (lines 230-297) *)

Lemma add_node_typed {rt : Runtime} dot n :
  add_node dot (node_json n) = inr (add dot (node_statement n)).
Proof.
  unfold add_node, node_json, node_statement, getitem, bind.
  replace (dict_get (py "id") [(py "id", JString (node_id n));
                                (py "label", JString (node_label n))])
    with (Some (JString (node_id n))) by reflexivity.
  replace (dict_get (py "label") [(py "id", JString (node_id n));
                                   (py "label", JString (node_label n))])
    with (Some (JString (node_label n))) by reflexivity.
  cbn [as_label]. now rewrite format_str.
Qed.

Lemma add_edge_typed {rt : Runtime} dot e :
  add_edge dot (edge_json e) = inr (add dot (edge_statement e)).
Proof.
  unfold add_edge, edge_json, edge_statement, getitem, get_default, bind.
  destruct (edge_label e) as [l|]; cbn [app].
  - replace (dict_get (py "from") _) with (Some (JString (edge_from e)))
      by reflexivity.
    replace (dict_get (py "to") _) with (Some (JString (edge_to e)))
      by reflexivity.
    replace (dict_get (py "label") _) with (Some (JString l)) by reflexivity.
    cbn [as_label]. now rewrite !format_str.
  - replace (dict_get (py "from") _) with (Some (JString (edge_from e)))
      by reflexivity.
    replace (dict_get (py "to") _) with (Some (JString (edge_to e)))
      by reflexivity.
    replace (dict_get (py "label") _) with (@None JSON) by reflexivity.
    cbn [as_label]. now rewrite !format_str.
Qed.

Lemma for_each_typed {A} (step : Digraph -> JSON -> exn + Digraph)
      (to_json : A -> JSON) (stmt : A -> statement) :
  (forall dot x, step dot (to_json x) = inr (add dot (stmt x))) ->
  forall items dot,
    for_each step (map to_json items) dot
    = inr {| comment := comment dot; graph_attr := graph_attr dot;
             body := body dot ++ map stmt items |}.
Proof.
  intros H items. induction items as [|x l IH]; intro dot; cbn [map for_each].
  - rewrite app_nil_r. now destruct dot.
  - rewrite H. cbn [bind]. rewrite IH. unfold add. cbn [comment graph_attr body].
    now rewrite <- app_assoc.
Qed.

(** A loop stops at the first item that raises: if some item always raises,
    the loop raises. *)
Lemma for_each_raises (step : Digraph -> JSON -> exn + Digraph) x items :
  In x items -> (forall dot, exists e, step dot x = inl e) ->
  forall dot, exists e, for_each step items dot = inl e.
Proof.
  intros Hin Hx. induction items as [|y l IH]; [contradiction|].
  intro dot. cbn [for_each].
  destruct (step dot y) as [e|dot'] eqn:E.
  - now exists e.
  - cbn [bind]. destruct Hin as [->|Hin].
    + destruct (Hx dot) as [e K]. congruence.
    + now apply IH.
Qed.

Lemma bind_raises {A B} (x : exn + A) (f : A -> exn + B) :
  (forall a, x = inr a -> exists e, f a = inl e) -> exists e, bind x f = inl e.
Proof.
  destruct x as [e|a]; intro H; [now exists e|]. now apply H.
Qed.

Lemma render_typed {rt : Runtime} (g : FlowGraph) :
  render (graph_json g) = inr (diagram_of g).
Proof.
  unfold render, graph_json, getitem.
  replace (dict_get (py "nodes") _)
    with (Some (JArray (map node_json (nodes g)))) by reflexivity.
  replace (dict_get (py "edges") _)
    with (Some (JArray (map edge_json (edges g)))) by reflexivity.
  cbn [bind iterate].
  rewrite (for_each_typed add_node node_json node_statement add_node_typed).
  cbn [bind].
  rewrite (for_each_typed add_edge edge_json edge_statement add_edge_typed).
  reflexivity.
Qed.

(** The drawing of a typed graph can be encoded exactly when the strings of
    the graph can: the styles, colours and the prefix are ASCII. *)
Lemma encodable_app a b : encodable (a ++ b) = encodable a && encodable b.
Proof. apply forallb_app. Qed.

Lemma node_statement_encodable {rt : Runtime} n :
  encodable_statement (node_statement n)
  = encodable (node_id n) && encodable (node_label n).
Proof.
  unfold node_statement, style_of_label. cbv zeta.
  repeat match goal with
         | |- context [if ?c then _ else _] => destruct c
         end;
    cbn [encodable_statement shape fillcolor fontcolor];
    rewrite encodable_app;
    destruct (encodable (node_id n)), (encodable (node_label n)); reflexivity.
Qed.

Lemma edge_statement_encodable {rt : Runtime} e :
  encodable_statement (edge_statement e)
  = encodable (edge_from e) && encodable (edge_to e)
    && match edge_label e with
       | Some l => encodable l
       | None => true
       end.
Proof.
  unfold edge_statement, edge_color. cbv zeta.
  repeat match goal with
         | |- context [if ?c then _ else _] => destruct c
         end;
    cbn [encodable_statement]; rewrite !encodable_app;
    destruct (encodable (edge_from e)), (encodable (edge_to e)),
             (edge_label e) as [l|]; try reflexivity;
    destruct (encodable l); reflexivity.
Qed.

Lemma forallb_pointwise {A} (f h : A -> bool) l :
  (forall x, f x = h x) -> forallb f l = forallb h l.
Proof.
  intro H. induction l as [|x l IH]; simpl; [reflexivity|].
  now rewrite H, IH.
Qed.

Lemma diagram_encodable {rt : Runtime} (g : FlowGraph) :
  encodable_digraph (diagram_of g) = encodable_graph g.
Proof.
  unfold encodable_digraph, diagram_of, encodable_graph.
  cbn [comment graph_attr body].
  replace (encodable (py "Code Flowchart")) with true by reflexivity.
  replace (forallb (fun kv : str * str => encodable (fst kv) && encodable (snd kv))
                   [(py "rankdir", py "TB"); (py "splines", py "ortho")])
    with true by reflexivity.
  cbn [andb]. rewrite forallb_app, !forallb_over_map. f_equal.
  - apply forallb_pointwise, node_statement_encodable.
  - apply forallb_pointwise, edge_statement_encodable.
Qed.

(** C6: the colour of an edge follows the ordered rules on the lower-cased
    label: "yes" exactly or "true" inside gives green, else "no" exactly or
    "false" inside gives red, else "iteration" or "loop" inside gives blue,
    else gray; the empty label matches no rule.  Every turn of the edge
    loop draws its edge in that colour: with the label of the entry when it
    has one, with the empty label, hence gray, when it has none; and so
    does every edge of a rendered graph. *)
Theorem edge_color_rules {rt : Runtime} (label_text : str) :
  edge_color label_text = first_match edge_rules gray (lower label_text)
  /\ forallb (fun r => negb (fst r (lower []))) edge_rules = true
  /\ edge_color [] = gray
  /\ (forall dot d from to,
         dict_get (py "from") d = Some from ->
         dict_get (py "to") d = Some to ->
         dict_get (py "label") d = None ->
         add_edge dot (JObject d)
         = inr (add dot (EdgeStmt (py "N_" ++ format_value from)
                                  (py "N_" ++ format_value to)
                                  [] gray (py "2.0"))))
  /\ (forall dot d from to,
         dict_get (py "from") d = Some from ->
         dict_get (py "to") d = Some to ->
         dict_get (py "label") d = Some (JString label_text) ->
         add_edge dot (JObject d)
         = inr (add dot (EdgeStmt (py "N_" ++ format_value from)
                                  (py "N_" ++ format_value to)
                                  label_text
                                  (first_match edge_rules gray (lower label_text))
                                  (py "2.0"))))
  /\ (forall g e,
         In e (edges g) ->
         edge_label e = Some label_text \/
         (edge_label e = None /\ label_text = []) ->
         exists dot,
           render (graph_json g) = inr dot
           /\ In (EdgeStmt (py "N_" ++ edge_from e) (py "N_" ++ edge_to e)
                           label_text
                           (first_match edge_rules gray (lower label_text))
                           (py "2.0")) (body dot))
  /\ edge_color (py "Yes") = green
  /\ edge_color (py "No") = red
  /\ edge_color (py "Next Iteration") = pure_blue.
Proof.
  split; [apply edge_color_table|].
  split; [unfold edge_rules; cbn [forallb fst]; run_ascii|].
  split; [apply edge_color_empty|].
  split.
  { intros dot d from to Hf Ht Hl.
    unfold add_edge, getitem, get_default, bind. rewrite Hf, Ht, Hl.
    cbn [as_label]. now rewrite edge_color_empty. }
  split.
  { intros dot d from to Hf Ht Hl.
    unfold add_edge, getitem, get_default, bind. rewrite Hf, Ht, Hl.
    cbn [as_label]. now rewrite edge_color_table. }
  split.
  { intros g e He Hl. exists (diagram_of g). split; [apply render_typed|].
    cbn [diagram_of body]. apply in_or_app. right.
    rewrite <- edge_color_table.
    replace (EdgeStmt (py "N_" ++ edge_from e) (py "N_" ++ edge_to e)
                      label_text (edge_color label_text) (py "2.0"))
      with (edge_statement e); [now apply in_map|].
    unfold edge_statement.
    destruct Hl as [-> | [-> ->]]; reflexivity. }
  unfold edge_color. repeat split; run_ascii.
Qed.

Lemma edge_color_rules_witness :
  @add_edge ascii_runtime empty_digraph
            (JObject [(py "from", JString (py "A")); (py "to", JString (py "B"));
                      (py "label", JString (py "Not TRUE"))])
  = inr (add empty_digraph
             (EdgeStmt (py "N_A") (py "N_B") (py "Not TRUE") green (py "2.0"))).
Proof.
  apply (proj1 (proj2 (proj2 (proj2 (proj2
           (@edge_color_rules ascii_runtime (py "Not TRUE"))))))
           empty_digraph _ (JString (py "A")) (JString (py "B")));
    reflexivity.
Defined.




(** C9: an edge entry whose [label] is present and not a string makes its
    turn of the edge loop raise, [AttributeError] when both endpoints are
    there; the whole rendering raises, and the page shows the generic error
    and no diagram, where an edge without label would have been drawn
    gray. *)
Theorem non_string_label_aborts {rt : Runtime} {lim : Limits}
        (d de : list (str * JSON)) (es : list JSON) (v : JSON) :
  dict_get (py "edges") d = Some (JArray es) ->
  In (JObject de) es ->
  dict_get (py "label") de = Some v ->
  (forall s, v <> JString s) ->
  (forall dot, exists e, add_edge dot (JObject de) = inl e)
  /\ (forall dot from to,
         dict_get (py "from") de = Some from ->
         dict_get (py "to") de = Some to ->
         add_edge dot (JObject de) = inl AttributeError)
  /\ exists e,
      render (JObject d) = inl e
      /\ forall raw explanation,
          extractGraph raw = Graph (JObject d) ->
          present raw explanation = [StError (GenerationFailed e)]
          /\ shows_diagram (present raw explanation) = false.
Proof.
  intros He Hin Hl Hv.
  assert (L : as_label v = inl AttributeError).
  { destruct v; try reflexivity. now elim (Hv s). }
  assert (A : forall dot, exists e, add_edge dot (JObject de) = inl e).
  { intro dot. unfold add_edge, getitem, get_default.
    destruct (dict_get (py "from") de); [|now eexists].
    destruct (dict_get (py "to") de); [|now eexists].
    rewrite Hl. cbn [bind]. rewrite L. now eexists. }
  split; [exact A|]. split.
  { intros dot from to Hf Ht. unfold add_edge, getitem, get_default.
    rewrite Hf, Ht, Hl. cbn [bind]. now rewrite L. }
  assert (R : exists e, render (JObject d) = inl e).
  { unfold render. repeat (apply bind_raises; intros ? ?).
    unfold getitem in H2. rewrite He in H2. injection H2 as <-.
    cbn [iterate] in H3. injection H3 as <-.
    now apply (for_each_raises add_edge (JObject de)). }
  destruct R as [e R]. exists e. split; [exact R|].
  intros raw explanation E. unfold present. now rewrite E, R.
Qed.

Lemma non_string_label_aborts_witness :
  let d := [(py "nodes", JArray []);
            (py "edges",
             JArray [JObject [(py "from", JString (py "A"));
                              (py "to", JString (py "B"));
                              (py "label", JNull)]])] in
  exists e,
    @render ascii_runtime (JObject d) = inl e
    /\ forall raw explanation,
        @extractGraph reference_limits raw = Graph (JObject d) ->
        @present ascii_runtime reference_limits raw explanation
        = [StError (GenerationFailed e)]
        /\ shows_diagram (@present ascii_runtime reference_limits raw explanation)
           = false.
Proof.
  intro d.
  apply (proj2 (proj2
           (@non_string_label_aborts ascii_runtime reference_limits d
              [(py "from", JString (py "A")); (py "to", JString (py "B"));
               (py "label", JNull)]
              [JObject [(py "from", JString (py "A"));
                        (py "to", JString (py "B"));
                        (py "label", JNull)]]
              JNull eq_refl (or_introl eq_refl) eq_refl
              ltac:(discriminate)))).
Defined.

(** ** The model at work *)

(** The scenario of the specification: a start node, a return node and an
    unlabelled edge give an oval green node, an oval purple node and a gray
    edge, after the two completion calls and with no error. *)
Example end_to_end {rt : Runtime} :
  let reply := pyq "Sure! {'nodes': [{'id': 'A', 'label': 'Start: f(n)'}, {'id': 'B', 'label': 'Return 1'}], 'edges': [{'from': 'A', 'to': 'B'}]} Hope that helps" in
  let svc := canned_service (inr reply) (inr (py "It returns 1.")) in
  exists graph_data,
    @generate rt reference_limits svc (py "def f(n): return 1")
              (py "some-model")
    = [Completion (flowchart_request (py "some-model") (py "def f(n): return 1"));
       Completion (explanation_request (py "some-model") (py "def f(n): return 1"));
       StGraphvizChart
         {| comment := py "Code Flowchart";
            graph_attr := [(py "rankdir", py "TB"); (py "splines", py "ortho")];
            body := [NodeStmt (py "N_A") (py "Start: f(n)") (py "oval")
                              (py "filled") green (py "white")
                              (py "Start: f(n)");
                     NodeStmt (py "N_B") (py "Return 1") (py "oval")
                              (py "filled") purple (py "white")
                              (py "Return 1");
                     EdgeStmt (py "N_A") (py "N_B") [] gray (py "2.0")] |};
       StMarkdown (py "---"); StSubheader (py "Code Explanation");
       StWrite (py "It returns 1."); StRawJson graph_data].
Proof.
  intros reply svc.
  set (g := {| nodes := [ {| node_id := py "A"; node_label := py "Start: f(n)" |};
                          {| node_id := py "B"; node_label := py "Return 1" |} ];
               edges := [ {| edge_from := py "A"; edge_to := py "B";
                             edge_label := None |} ] |}).
  exists (graph_json g).
  assert (E : @extractGraph reference_limits (strip reply)
              = Graph (graph_json g))
    by (vm_compute; reflexivity).
  unfold generate.
  replace (truthy (strip (py "def f(n): return 1"))) with true by reflexivity.
  cbn [negb].
  replace (complete (flowchart_request (py "some-model") (py "def f(n): return 1")))
    with (@inr exn str reply) by reflexivity.
  replace (complete (explanation_request (py "some-model") (py "def f(n): return 1")))
    with (@inr exn str (py "It returns 1.")) by reflexivity.
  unfold present. rewrite E, render_typed, diagram_encodable.
  replace (encodable_graph g) with true by reflexivity.
  replace (encodable (strip (py "It returns 1."))) with true by reflexivity.
  unfold diagram_of, node_statement, edge_statement, style_of_label, edge_color.
  cbn [nodes edges g map node_label node_id edge_from edge_to edge_label app].
  rewrite !lower_ascii by (vm_compute; reflexivity).
  vm_compute. reflexivity.
Qed.

(** The guard of the button fires for blank input only: any other input
    starts with the first completion call. *)
Lemma nonblank_input_calls_service {rt : Runtime} {lim : Limits}
      {svc : Service}
      (code_input model_choice : str) :
  ~ Forall (fun c => isspace c = true) code_input ->
  exists rest,
    generate code_input model_choice
    = Completion (flowchart_request model_choice code_input) :: rest.
Proof.
  intro H. unfold generate.
  destruct (strip code_input) as [|c t] eqn:E.
  - exfalso. apply H. now apply strip_blank_iff.
  - cbn [truthy negb].
    destruct (complete (flowchart_request model_choice code_input));
      [now eexists|].
    destruct (complete (explanation_request model_choice code_input));
      now eexists.
Qed.

(** * Further properties of the script *)

(** ** The candidate (lines 207-214) *)

Lemma first_occurrence (c : char) (s : str) :
  In c s -> exists pre rest, s = pre ++ c :: rest /\ ~ In c pre.
Proof.
  induction s as [|x t IH]; [contradiction|].
  destruct (N.eq_dec x c) as [->|Hx].
  - intros _. exists [], t. split; [reflexivity|]. intros [].
  - intros [E|H]; [contradiction|].
    destruct (IH H) as (pre & rest & -> & Hp).
    exists (x :: pre), rest. split; [reflexivity|].
    intros [E|K]; [contradiction|]. now apply Hp.
Qed.

Lemma last_occurrence (c : char) (s : str) :
  In c s -> exists pre rest, s = pre ++ c :: rest /\ ~ In c rest.
Proof.
  intro H. apply in_rev in H. apply first_occurrence in H
    as (pre & rest & E & Hp).
  exists (rev rest), (rev pre). split.
  - rewrite <- (rev_involutive s), E, rev_app_distr. simpl.
    now rewrite <- app_assoc.
  - now rewrite <- in_rev.
Qed.

(** Either the candidate is the whole text, or the text splits around its
    first opening and its last closing brace. *)
Lemma json_string_cases (raw : str) :
  json_string raw = raw
  \/ exists pre mid post,
      raw = pre ++ lbrace :: mid ++ rbrace :: post
      /\ ~ In lbrace pre /\ ~ In rbrace post
      /\ json_string raw = lbrace :: mid ++ [rbrace].
Proof.
  destruct (in_dec N.eq_dec lbrace raw) as [Hl|Hl];
    [|left; apply json_string_no_brace; now left].
  destruct (in_dec N.eq_dec rbrace raw) as [Hr|Hr];
    [|left; apply json_string_no_brace; now right].
  destruct (first_occurrence _ _ Hl) as (pre & r1 & E1 & Hpre).
  destruct (last_occurrence _ _ Hr) as (x & post & E2 & Hpost).
  assert (E : pre ++ lbrace :: r1 = x ++ rbrace :: post) by congruence.
  apply app_eq_app in E as [l [[Ex Ey]|[Ex Ey]]].
  - (* the closing brace comes first *)
    left. destruct l as [|c l].
    + simpl in Ey. discriminate Ey.
    + injection Ey as <- ->. subst pre.
      rewrite E1. rewrite <- app_assoc. cbn [app].
      rewrite in_app_iff in Hpre. cbn [In] in Hpre.
      rewrite in_app_iff in Hpost. cbn [In] in Hpost.
      apply json_string_reversed; tauto.
  - right. destruct l as [|c l].
    + simpl in Ey. discriminate Ey.
    + injection Ey as <- ->. subst x.
      exists pre, l, post. rewrite E2. rewrite <- app_assoc. cbn [app].
      repeat split; trivial. now apply json_string_between.
Qed.

(** X1.  Slicing twice is slicing once: the candidate of a candidate is
    itself. *)
Theorem candidate_idempotent (raw : str) :
  json_string (json_string raw) = json_string raw.
Proof.
  destruct (json_string_cases raw) as [E|(pre & mid & post & _ & _ & _ & E)].
  - now rewrite E.
  - rewrite E. apply (@json_string_between [] mid []); simpl; tauto.
Qed.

(** X2.  The candidate is a contiguous piece of the text, and when it is
    not the whole text it begins with an opening and ends with a closing
    brace, with no opening brace before it and no closing brace after it in
    the text. *)
Theorem candidate_is_piece (raw : str) :
  exists pre post,
    raw = pre ++ json_string raw ++ post
    /\ (json_string raw = raw
        \/ (exists mid, json_string raw = lbrace :: mid ++ [rbrace])
           /\ ~ In lbrace pre /\ ~ In rbrace post).
Proof.
  destruct (json_string_cases raw) as [E|(pre & mid & post & R & Hl & Hr & E)].
  - exists [], []. rewrite E, app_nil_r. auto.
  - exists pre, post. rewrite E. split.
    + rewrite R. cbn [app]. now rewrite <- app_assoc.
    + right. split; [now exists mid|]. now split.
Qed.

(** ** Extraction (lines 207-228) *)

Lemma json_string_wrapped o d pre post :
  ~ In lbrace pre -> ~ In rbrace post ->
  json_string (pre ++ json_dumps_with o (JObject d) ++ post)
  = json_dumps_with o (JObject d).
Proof.
  intros Hl Hr. cbn [json_dumps_with].
  match goal with
  | |- json_string (pre ++ (lbrace :: ?m ++ [rbrace]) ++ post) = _ =>
      replace (pre ++ (lbrace :: m ++ [rbrace]) ++ post)
        with (pre ++ lbrace :: m ++ rbrace :: post)
        by (cbn [app]; now rewrite <- app_assoc)
  end.
  now apply json_string_between.
Qed.

(** The candidate of a wrapped serialization decodes to the dict. *)
Lemma wrapped_object_decoded {lim : Limits} (o : dump_options)
      (d : list (str * JSON)) (pre post : str) :
  options_ok o = true ->
  printable (ensure_ascii o) (JObject d) = true ->
  nesting (JObject d) <= max_depth ->
  ~ In lbrace pre -> ~ In rbrace post ->
  json_loads (json_string (pre ++ json_dumps_with o (JObject d) ++ post))
  = inr (JObject d).
Proof.
  intros Ho Hp Hd Hl Hr.
  now rewrite json_string_wrapped, json_loads_dumps.
Qed.

(** X3.  Prose around the JSON is harmless: when the serialization of a
    dict with the two keys stands between a text without opening brace and a
    text without closing brace, extraction returns that dict.  The dict is
    one the round trip is proved for: without numbers, with distinct keys,
    nested no deeper than the decoder may recurse and, when the encoder
    escapes everything outside ASCII, without a high surrogate directly
    before a low one in a string. *)
Theorem prose_wrapped_recovery {lim : Limits} (o : dump_options)
        (d : list (str * JSON)) (pre post : str) :
  options_ok o = true ->
  printable (ensure_ascii o) (JObject d) = true ->
  nesting (JObject d) <= max_depth ->
  dict_has (py "nodes") d = true -> dict_has (py "edges") d = true ->
  ~ In lbrace pre -> ~ In rbrace post ->
  extractGraph (pre ++ json_dumps_with o (JObject d) ++ post)
  = Graph (JObject d).
Proof.
  intros Ho Hp Hd Hn He Hl Hr. unfold extractGraph.
  rewrite wrapped_object_decoded by assumption.
  cbn [py_in]. now rewrite Hn, He.
Qed.

Lemma prose_wrapped_recovery_witness :
  let d := [(py "nodes", JArray [JObject [(py "id", JString (py "A"));
                                          (py "label", JString (py "Start"))]]);
            (py "edges", JArray [])] in
  @extractGraph reference_limits
    (py "Sure! ```json " ++ json_dumps (JObject d) ++ py " ``` Hope that helps")
  = Graph (JObject d).
Proof.
  intro d.
  apply (@prose_wrapped_recovery reference_limits default_options d
           (py "Sure! ```json ") (py " ``` Hope that helps"));
    try reflexivity; vm_compute; try lia; intuition discriminate.
Defined.



(** X6.  A reply that [json.loads] decodes to something other than a dict
    never gives a diagram.  A number, a boolean or null makes the check of
    the keys raise, and the page shows the generic error; a list or a string
    is searched for "nodes" and "edges" as items or as substrings: without
    both the outcome is MissingField, with both the check passes and the
    rendering raises, so the page shows the generic error again. *)
Theorem non_dict_reply {rt : Runtime} {lim : Limits} (raw explanation : str)
        (v : JSON) :
  json_loads (json_string raw) = inr v ->
  (forall d, v <> JObject d) ->
  shows_diagram (present raw explanation) = false
  /\ match v with
     | JArray items =>
         if holds_string (py "nodes") items && holds_string (py "edges") items
         then present raw explanation = [StError (GenerationFailed TypeError)]
         else extractGraph raw = MissingField raw
     | JString s =>
         if contains (py "nodes") s && contains (py "edges") s
         then present raw explanation = [StError (GenerationFailed TypeError)]
         else extractGraph raw = MissingField raw
     | _ =>
         extractGraph raw = Raised TypeError
         /\ present raw explanation = [StError (GenerationFailed TypeError)]
     end.
Proof.
  intros Hj Hv.
  assert (R : render v = inl TypeError) by now apply render_not_object.
  split.
  { unfold present, extractGraph. rewrite Hj.
    destruct (py_in (py "nodes") v) as [?|[|]]; try reflexivity;
      try apply show_raw_no_diagram.
    destruct (py_in (py "edges") v) as [?|[|]]; try reflexivity;
      try apply show_raw_no_diagram.
    now rewrite R. }
  unfold present, extractGraph. rewrite Hj.
  destruct v as [| b | n | l | s | items | d]; cbn [py_in];
    try (split; reflexivity).
  - destruct (contains (py "nodes") s); [|reflexivity].
    destruct (contains (py "edges") s); [|reflexivity].
    now rewrite R.
  - fold (holds_string (py "nodes") items).
    fold (holds_string (py "edges") items).
    destruct (holds_string (py "nodes") items); [|reflexivity].
    destruct (holds_string (py "edges") items); [|reflexivity].
    now rewrite R.
  - now elim (Hv d).
Qed.

Lemma non_dict_reply_witness :
  @present ascii_runtime reference_limits (pyq "['nodes', 'edges']") (py "text")
  = [StError (GenerationFailed TypeError)]
  /\ @extractGraph reference_limits (pyq "'only nodes here'")
     = MissingField (pyq "'only nodes here'")
  /\ @extractGraph reference_limits (py "true") = Raised TypeError.
Proof.
  split; [|split].
  - apply (proj2 (@non_dict_reply ascii_runtime reference_limits
                    (pyq "['nodes', 'edges']") (py "text")
                    (JArray [JString (py "nodes"); JString (py "edges")])
                    eq_refl ltac:(discriminate))).
  - apply (proj2 (@non_dict_reply ascii_runtime reference_limits
                    (pyq "'only nodes here'") []
                    (JString (py "only nodes here"))
                    eq_refl ltac:(discriminate))).
  - apply (proj2 (@non_dict_reply ascii_runtime reference_limits (py "true") []
                    (JBool true) eq_refl ltac:(discriminate))).
Defined.

(** ** The loops of the rendering (lines 236-297) *)

(** One turn of the node loop either raises whatever was drawn before, or
    appends one statement whatever was drawn before. *)
Lemma add_node_cases {rt : Runtime} (n : JSON) :
  (exists e, forall dot, add_node dot n = inl e)
  \/ (exists st, draws_node n st /\ forall dot, add_node dot n = inr (add dot st)).
Proof.
  unfold add_node, getitem.
  destruct n as [| | | | | |d]; try (left; now exists TypeError).
  destruct (dict_get (py "id") d) as [id|] eqn:Ei;
    [|left; now exists (KeyError (py "id"))].
  destruct (dict_get (py "label") d) as [l|] eqn:El;
    [|left; now exists (KeyError (py "label"))].
  destruct l as [| | | |l| |]; try (left; now exists AttributeError).
  right. eexists. split; [|intro dot; reflexivity].
  exists d, id, l. repeat split; auto.
Qed.

Lemma add_edge_cases {rt : Runtime} (x : JSON) :
  (exists e, forall dot, add_edge dot x = inl e)
  \/ (exists st, draws_edge x st /\ forall dot, add_edge dot x = inr (add dot st)).
Proof.
  unfold add_edge, getitem, get_default.
  destruct x as [| | | | | |d]; try (left; now exists TypeError).
  destruct (dict_get (py "from") d) as [from|] eqn:Ef;
    [|left; now exists (KeyError (py "from"))].
  destruct (dict_get (py "to") d) as [to|] eqn:Et;
    [|left; now exists (KeyError (py "to"))].
  destruct (dict_get (py "label") d) as [l|] eqn:El.
  - destruct l as [| | | |l| |]; try (left; now exists AttributeError).
    right. eexists. split; [|intro dot; reflexivity].
    exists d, from, to, l. repeat split; auto.
  - right. eexists. split; [|intro dot; reflexivity].
    exists d, from, to, []. repeat split; auto.
Qed.

Lemma draws_node_add {rt : Runtime} n st dot :
  draws_node n st -> add_node dot n = inr (add dot st).
Proof.
  intros (d & id & l & -> & Hi & Hl & ->).
  unfold add_node, getitem. now rewrite Hi, Hl.
Qed.

Lemma draws_edge_add {rt : Runtime} x st dot :
  draws_edge x st -> add_edge dot x = inr (add dot st).
Proof.
  intros (d & from & to & l & -> & Hf & Ht & Hl & ->).
  unfold add_edge, getitem, get_default. rewrite Hf, Ht.
  destruct Hl as [->|[-> ->]]; reflexivity.
Qed.

Lemma draws_node_fun {rt : Runtime} n st st' :
  draws_node n st -> draws_node n st' -> st = st'.
Proof.
  intros H H'. pose proof (draws_node_add empty_digraph H) as E.
  rewrite (draws_node_add empty_digraph H') in E.
  injection E as E. now symmetry.
Qed.

Section Loop.

Variable step : Digraph -> JSON -> exn + Digraph.
Variable draws : JSON -> statement -> Prop.

Hypothesis step_cases :
  forall x,
    (exists e, forall dot, step dot x = inl e)
    \/ (exists st, draws x st /\ forall dot, step dot x = inr (add dot st)).
Hypothesis draws_step :
  forall x st dot, draws x st -> step dot x = inr (add dot st).

Lemma for_each_drawn items statements dot :
  Forall2 draws items statements ->
  for_each step items dot = inr (extend dot statements).
Proof.
  intro H. revert dot. induction H as [|x st items sts Hx _ IH]; intro dot.
  - unfold extend. rewrite app_nil_r. now destruct dot.
  - cbn [for_each]. rewrite (draws_step dot Hx). cbn [bind]. rewrite IH.
    unfold extend, add. cbn [comment graph_attr body].
    now rewrite <- app_assoc.
Qed.

Lemma for_each_success items dot dot' :
  for_each step items dot = inr dot' ->
  exists statements,
    Forall2 draws items statements /\ dot' = extend dot statements.
Proof.
  revert dot. induction items as [|x items IH]; intro dot; cbn [for_each].
  - intros [= <-]. exists []. split; [constructor|].
    unfold extend. rewrite app_nil_r. now destruct dot.
  - destruct (step_cases x) as [[e He]|(st & Hd & Hs)].
    + rewrite He. discriminate.
    + rewrite Hs. cbn [bind]. intro H.
      apply IH in H as (sts & HF & ->).
      exists (st :: sts). split; [now constructor|].
      unfold extend, add. cbn [comment graph_attr body].
      now rewrite <- app_assoc.
Qed.

Lemma for_each_first_fault pre x post e probe :
  (forall y, In y pre -> exists dot', step probe y = inr dot') ->
  step probe x = inl e ->
  forall dot, for_each step (pre ++ x :: post) dot = inl e.
Proof.
  intros Hpre Hx. induction pre as [|y pre IH]; intro dot; cbn [app for_each].
  - destruct (step_cases x) as [[e' He]|(st & _ & Hs)].
    + rewrite He. rewrite He in Hx. exact Hx.
    + rewrite Hs in Hx. discriminate Hx.
  - destruct (step_cases y) as [[e' He]|(st & _ & Hs)].
    + destruct (Hpre y (or_introl eq_refl)) as [dot' K].
      rewrite He in K. discriminate K.
    + rewrite Hs. cbn [bind]. apply IH.
      intros z Hz. apply Hpre. now right.
Qed.

End Loop.

(** X7.  The rendering succeeds exactly when the value is a dict whose
    [nodes] and [edges] can be iterated, every node entry is a dict with an
    id and a string label, and every edge entry is a dict with both
    endpoints and a string or absent label; the drawing then has the fixed
    attributes and holds one statement per node entry followed by one per
    edge entry, in order, each node with its label as tooltip. *)
Theorem render_success_shape {rt : Runtime} (graph_data : JSON) (dot : Digraph) :
  render graph_data = inr dot
  <-> exists d vn ve ns es bn be,
      graph_data = JObject d
      /\ dict_get (py "nodes") d = Some vn /\ iterate vn = inr ns
      /\ dict_get (py "edges") d = Some ve /\ iterate ve = inr es
      /\ Forall2 draws_node ns bn /\ Forall2 draws_edge es be
      /\ dot = extend empty_digraph (bn ++ be).
Proof.
  split.
  - destruct graph_data as [| | | | | |d]; try discriminate.
    unfold render, getitem.
    destruct (dict_get (py "nodes") d) as [vn|] eqn:En; [|discriminate].
    cbn [bind]. destruct (iterate vn) as [e|ns] eqn:In; [discriminate|].
    cbn [bind].
    destruct (for_each add_node ns empty_digraph) as [e|dot1] eqn:Fn;
      [discriminate|].
    cbn [bind].
    destruct (dict_get (py "edges") d) as [ve|] eqn:Ee; [|discriminate].
    cbn [bind]. destruct (iterate ve) as [e|es] eqn:Ie; [discriminate|].
    cbn [bind]. intro Fe.
    apply (@for_each_success add_node draws_node add_node_cases) in Fn
      as (bn & Hn & ->).
    apply (@for_each_success add_edge draws_edge add_edge_cases) in Fe
      as (be & He & ->).
    exists d, vn, ve, ns, es, bn, be.
    repeat split; trivial; unfold extend; cbn [comment graph_attr body app];
      now rewrite app_assoc.
  - intros (d & vn & ve & ns & es & bn & be
            & -> & En & In & Ee & Ie & Hn & He & ->).
    unfold render, getitem. rewrite En. cbn [bind]. rewrite In. cbn [bind].
    rewrite (@for_each_drawn add_node draws_node
               (fun x st dot => @draws_node_add rt x st dot)
               ns bn empty_digraph Hn).
    cbn [bind]. rewrite Ee. cbn [bind]. rewrite Ie. cbn [bind].
    rewrite (@for_each_drawn add_edge draws_edge
               (fun x st dot => @draws_edge_add rt x st dot) es be _ He).
    unfold extend. cbn [comment graph_attr body app].
    now rewrite app_assoc.
Qed.

(** X8.  The first node entry that cannot be drawn decides the outcome: when
    the entries before it can each be drawn and it raises [e], the rendering
    raises [e], whatever follows it among the nodes and whatever [edges]
    holds, which is never looked at. *)
Theorem first_faulty_node_decides {rt : Runtime} (d : list (str * JSON))
        (vn : JSON) (pre post : list JSON) (n : JSON) (e : exn) :
  dict_get (py "nodes") d = Some vn ->
  iterate vn = inr (pre ++ n :: post) ->
  (forall x, In x pre -> exists dot, add_node empty_digraph x = inr dot) ->
  add_node empty_digraph n = inl e ->
  render (JObject d) = inl e.
Proof.
  intros En In Hpre Hn. unfold render, getitem.
  rewrite En. cbn [bind]. rewrite In. cbn [bind].
  now rewrite (@for_each_first_fault add_node draws_node add_node_cases
                 pre n post e empty_digraph Hpre Hn).
Qed.

Lemma first_faulty_node_decides_witness :
  @render ascii_runtime
    (JObject [(py "nodes",
               JArray [JObject [(py "id", JString (py "A"));
                                (py "label", JString (py "Start"))];
                       JObject [(py "id", JString (py "B"))];
                       JInt 7]);
              (py "edges", JInt 3)])
  = inl (KeyError (py "label")).
Proof.
  apply (@first_faulty_node_decides ascii_runtime _
           (JArray [JObject [(py "id", JString (py "A"));
                             (py "label", JString (py "Start"))];
                    JObject [(py "id", JString (py "B"))];
                    JInt 7])
           [JObject [(py "id", JString (py "A"));
                     (py "label", JString (py "Start"))]]
           [JInt 7]
           (JObject [(py "id", JString (py "B"))])).
  - reflexivity.
  - reflexivity.
  - intros x [<-|[]]. eexists. reflexivity.
  - reflexivity.
Defined.

(** X9.  When every node entry is drawn, the first edge entry that cannot
    be drawn decides the outcome in the same way: the rendering raises what
    that entry raises, and the nodes already drawn are dropped with it. *)
Theorem first_faulty_edge_decides {rt : Runtime} (d : list (str * JSON))
        (vn ve : JSON) (ns : list JSON) (bn : list statement)
        (pre post : list JSON) (x : JSON) (e : exn) :
  dict_get (py "nodes") d = Some vn -> iterate vn = inr ns ->
  Forall2 draws_node ns bn ->
  dict_get (py "edges") d = Some ve ->
  iterate ve = inr (pre ++ x :: post) ->
  (forall y, In y pre -> exists dot, add_edge empty_digraph y = inr dot) ->
  add_edge empty_digraph x = inl e ->
  render (JObject d) = inl e.
Proof.
  intros En In Hn Ee Ie Hpre Hx. unfold render, getitem.
  rewrite En. cbn [bind]. rewrite In. cbn [bind].
  rewrite (@for_each_drawn add_node draws_node
             (fun x st dot => @draws_node_add rt x st dot)
             ns bn empty_digraph Hn).
  cbn [bind]. rewrite Ee. cbn [bind]. rewrite Ie. cbn [bind].
  now rewrite (@for_each_first_fault add_edge draws_edge add_edge_cases
                 pre x post e empty_digraph Hpre Hx).
Qed.

Lemma first_faulty_edge_decides_witness :
  @render ascii_runtime
    (JObject [(py "nodes",
               JArray [JObject [(py "id", JString (py "A"));
                                (py "label", JString (py "Start"))]]);
              (py "edges",
               JArray [JObject [(py "from", JString (py "A"));
                                (py "to", JString (py "B"))];
                       JObject [(py "from", JString (py "B"))]])])
  = inl (KeyError (py "to")).
Proof.
  apply (@first_faulty_edge_decides ascii_runtime _
           (JArray [JObject [(py "id", JString (py "A"));
                             (py "label", JString (py "Start"))]])
           (JArray [JObject [(py "from", JString (py "A"));
                             (py "to", JString (py "B"))];
                    JObject [(py "from", JString (py "B"))]])
           [JObject [(py "id", JString (py "A"));
                     (py "label", JString (py "Start"))]]
           [NodeStmt (py "N_A") (py "Start") (py "oval") (py "filled")
                     green (py "white") (py "Start")]
           [JObject [(py "from", JString (py "A"));
                     (py "to", JString (py "B"))]]
           []
           (JObject [(py "from", JString (py "B"))])).
  - reflexivity.
  - reflexivity.
  - constructor; [|constructor].
    exists [(py "id", JString (py "A")); (py "label", JString (py "Start"))],
           (JString (py "A")), (py "Start").
    repeat split; reflexivity.
  - reflexivity.
  - reflexivity.
  - intros y [<-|[]]. eexists. reflexivity.
  - reflexivity.
Defined.

(** X10.  [nodes] need not be a list.  A number, a boolean or null cannot be
    iterated and a non-empty string or dict yields strings, which have no
    [id]: in each case the rendering raises [TypeError].  An empty string or
    dict gives a loop without turns, and the rendering goes on with the
    edges alone. *)
Theorem nodes_of_other_types {rt : Runtime} (d : list (str * JSON)) (vn : JSON) :
  dict_get (py "nodes") d = Some vn ->
  match vn with
  | JArray _ => True
  | JString [] | JObject [] =>
      render (JObject d)
      = (edges <- getitem (JObject d) (py "edges") ;;
         edges <- iterate edges ;;
         for_each add_edge edges empty_digraph)
  | _ => render (JObject d) = inl TypeError
  end.
Proof.
  intro En.
  assert (E : render (JObject d)
              = (nodes <- iterate vn ;;
                 dot <- for_each add_node nodes empty_digraph ;;
                 edges <- getitem (JObject d) (py "edges") ;;
                 edges <- iterate edges ;;
                 for_each add_edge edges dot)).
  { unfold render. unfold getitem at 1. now rewrite En. }
  destruct vn as [| | | |s|l|m]; trivial; try (rewrite E; reflexivity).
  - destruct s; rewrite E; reflexivity.
  - destruct m as [|[k v] m]; rewrite E; reflexivity.
Qed.

Lemma nodes_of_other_types_witness :
  @render ascii_runtime
    (JObject [(py "nodes", JString (py "A, B")); (py "edges", JArray [])])
  = inl TypeError.
Proof.
  apply (@nodes_of_other_types ascii_runtime
           [(py "nodes", JString (py "A, B")); (py "edges", JArray [])]
           (JString (py "A, B"))).
  reflexivity.
Defined.

Lemma node_names_typed {rt : Runtime} (g : FlowGraph) :
  node_names (body (diagram_of g))
  = map (fun n => py "N_" ++ node_id n) (nodes g).
Proof.
  cbn [diagram_of body]. unfold node_names.
  rewrite flat_map_app.
  replace (flat_map _ (map edge_statement (edges g))) with (@nil str).
  2:{ induction (edges g) as [|e l IH]; [reflexivity|]. cbn. exact IH. }
  rewrite app_nil_r.
  induction (nodes g) as [|n l IH]; [reflexivity|].
  cbn [map flat_map]. rewrite IH. reflexivity.
Qed.

(** X11.  The prefix keeps identifiers apart: in the drawing of a typed
    graph the node names are the identifiers with [N_] in front, and they
    are pairwise distinct exactly when the identifiers are. *)
Theorem prefixed_names_distinct {rt : Runtime} (g : FlowGraph) :
  exists dot,
    render (graph_json g) = inr dot
    /\ node_names (body dot) = map (fun n => py "N_" ++ node_id n) (nodes g)
    /\ (NoDup (node_names (body dot)) <-> NoDup (map node_id (nodes g))).
Proof.
  exists (diagram_of g). split; [apply render_typed|].
  split; [apply node_names_typed|].
  rewrite node_names_typed.
  replace (map (fun n => py "N_" ++ node_id n) (nodes g))
    with (map (app (py "N_")) (map node_id (nodes g)))
    by (rewrite map_map; reflexivity).
  split.
  - apply NoDup_map_inv.
  - intro H. induction H as [|x l Hx _ IH]; cbn [map]; constructor; trivial.
    intro K. apply in_map_iff in K as (y & E & Hy).
    apply app_inv_head in E. now subst y.
Qed.

(** ** Styles (lines 240-263 and 279-289) *)

(** X12.  Only the case of ASCII letters apart, two ASCII labels get the
    same node style and the same edge colour. *)
Theorem styles_ignore_ascii_case {rt : Runtime} (a b : str) :
  is_ascii a = true -> is_ascii b = true ->
  map ascii_lower a = map ascii_lower b ->
  style_of_label a = style_of_label b /\ edge_color a = edge_color b.
Proof.
  intros Ha Hb E. unfold style_of_label, edge_color.
  rewrite (lower_ascii a Ha), (lower_ascii b Hb), E. split; reflexivity.
Qed.

Lemma styles_ignore_ascii_case_witness :
  @style_of_label ascii_runtime (py "LOOP: Yes")
  = @style_of_label ascii_runtime (py "loop: yes")
  /\ @edge_color ascii_runtime (py "LOOP: Yes")
     = @edge_color ascii_runtime (py "loop: yes").
Proof.
  apply (@styles_ignore_ascii_case ascii_runtime); reflexivity.
Defined.

(** X13.  The palette is consistent: a node has black text exactly on the
    two light fills (yellow and light blue) and white text otherwise; it is
    a diamond exactly when yellow and an oval exactly when green or purple;
    an edge takes one of four colours. *)
Theorem palette {rt : Runtime} (label : str) :
  let st := style_of_label label in
  (fontcolor st = py "black" <-> fillcolor st = yellow \/ fillcolor st = light_blue)
  /\ (fontcolor st = py "white" \/ fontcolor st = py "black")
  /\ (shape st = py "diamond" <-> fillcolor st = yellow)
  /\ (shape st = py "oval" <-> fillcolor st = green \/ fillcolor st = purple)
  /\ In (edge_color label) [green; red; pure_blue; gray].
Proof.
  cbv zeta. split; [|split; [|split; [|split]]].
  5:{ unfold edge_color.
      repeat match goal with
             | |- context [if ?c then _ else _] => destruct c
             end; cbn [In]; auto. }
  all: unfold style_of_label;
    repeat match goal with
           | |- context [if ?c then _ else _] => destruct c
           end;
    cbn [fontcolor fillcolor shape];
    try (split; [intro H; try discriminate H; auto
                |intros H; try reflexivity;
                 try (destruct H as [H|H]; discriminate H);
                 try discriminate H]);
    auto.
Qed.


(** ** The button (lines 95-316) *)

Lemma present_cases {rt : Runtime} {lim : Limits} (raw explanation : str) :
  present raw explanation = [StError NoValidJson; StCode raw; StStop]
  \/ present raw explanation = [StError MissingNodesOrEdges; StCode raw; StStop]
  \/ (exists m e, present raw explanation = [StError m; StError (GenerationFailed e)])
  \/ (exists e, present raw explanation = [StError (GenerationFailed e)])
  \/ (exists dot graph_data,
         encodable explanation = true
         /\ present raw explanation
            = [StGraphvizChart dot; StMarkdown (py "---");
               StSubheader (py "Code Explanation"); StWrite explanation;
               StRawJson graph_data])
  \/ (exists dot,
         encodable explanation = false
         /\ present raw explanation
            = [StGraphvizChart dot; StMarkdown (py "---");
               StSubheader (py "Code Explanation");
               StError (GenerationFailed UnicodeEncodeError)]).
Proof.
  unfold present.
  destruct (extractGraph raw) as [r|r|e|g] eqn:E.
  - assert (r = raw) as ->.
    { unfold extractGraph in E.
      destruct (json_loads (json_string raw)) as [e|v].
      - destruct e; congruence.
      - destruct (py_in (py "nodes") v) as [?|[|]]; try discriminate E.
        destruct (py_in (py "edges") v) as [?|[|]]; discriminate E. }
    unfold show_raw. destruct (encodable raw); [now left|].
    right. right. left. now eexists _, _.
  - assert (r = raw) as ->.
    { unfold extractGraph in E.
      destruct (json_loads (json_string raw)) as [e|v].
      - destruct e; discriminate E.
      - destruct (py_in (py "nodes") v) as [?|[|]]; try congruence.
        destruct (py_in (py "edges") v) as [?|[|]]; congruence. }
    unfold show_raw. destruct (encodable raw); [right; now left|].
    right. right. left. now eexists _, _.
  - right. right. right. left. now exists e.
  - destruct (render g) as [e|dot].
    + right. right. right. left. now exists e.
    + destruct (encodable_digraph dot).
      * destruct (encodable explanation) eqn:X.
        -- right. right. right. right. left. now exists dot, g.
        -- right. right. right. right. right. now exists dot.
      * right. right. right. left. now eexists.
Qed.



(** X15.  A failing completion ends the attempt with the generic error.
    When the first call raises, the second is not made; when the second
    raises, the flowchart reply is dropped unread, whatever it holds. *)
Theorem service_failure_aborts {rt : Runtime} {lim : Limits} {svc : Service}
        (code_input model_choice : str) (e : exn) :
  truthy (strip code_input) = true ->
  (complete (flowchart_request model_choice code_input) = inl e ->
   generate code_input model_choice
   = [Completion (flowchart_request model_choice code_input);
      StError (GenerationFailed e)])
  /\ (forall content,
         complete (flowchart_request model_choice code_input) = inr content ->
         complete (explanation_request model_choice code_input) = inl e ->
         generate code_input model_choice
         = [Completion (flowchart_request model_choice code_input);
            Completion (explanation_request model_choice code_input);
            StError (GenerationFailed e)]).
Proof.
  intro Hc. unfold generate. rewrite Hc. cbn [negb]. split.
  - now intros ->.
  - now intros content -> ->.
Qed.

Lemma service_failure_aborts_witness :
  let svc := canned_service (inr (pyq "{'nodes': [], 'edges': []}"))
                            (inl (ServiceError (py "rate limit"))) in
  @generate ascii_runtime reference_limits svc (py "pass") (py "some-model")
  = [Completion (flowchart_request (py "some-model") (py "pass"));
     Completion (explanation_request (py "some-model") (py "pass"));
     StError (GenerationFailed (ServiceError (py "rate limit")))].
Proof.
  intro svc.
  apply (proj2 (@service_failure_aborts ascii_runtime reference_limits svc
                  (py "pass")
                  (py "some-model") (ServiceError (py "rate limit")) eq_refl)
           (pyq "{'nodes': [], 'edges': []}")); reflexivity.
Defined.

Lemma startswith_app (p rest : str) : startswith p (p ++ rest) = true.
Proof.
  induction p as [|c p IH]; [reflexivity|]. cbn [app startswith].
  now rewrite N.eqb_refl, IH.
Qed.

Lemma contains_inside (needle before after : str) :
  contains needle (before ++ needle ++ after) = true.
Proof.
  induction before as [|c t IH]; cbn [app].
  - destruct (needle ++ after) eqn:E; cbn [contains];
      rewrite <- E, startswith_app; reflexivity.
  - cbn [contains]. rewrite IH. apply orb_true_r.
Qed.

(** X16.  Every completion request of an attempt names the chosen model and
    carries the pasted code, unchanged and unstripped, inside its prompt. *)
Theorem requests_carry_code {rt : Runtime} {lim : Limits} {svc : Service}
        (code_input model_choice : str) (r : request) :
  In (Completion r) (generate code_input model_choice) ->
  model r = model_choice
  /\ contains code_input (user_message r) = true
  /\ (r = flowchart_request model_choice code_input
      \/ r = explanation_request model_choice code_input).
Proof.
  assert (P : forall raw explanation, ~ In (Completion r) (present raw explanation)).
  { intros raw explanation.
    destruct (present_cases raw explanation)
      as [-> |[-> |[(m & e & ->)|[[e ->]|[(dot & g & _ & ->)|(dot & _ & ->)]]]]];
      cbn [In]; intuition discriminate. }
  assert (F : r = flowchart_request model_choice code_input
              \/ r = explanation_request model_choice code_input ->
              model r = model_choice
              /\ contains code_input (user_message r) = true
              /\ (r = flowchart_request model_choice code_input
                  \/ r = explanation_request model_choice code_input)).
  { intro H. split; [|split; [|exact H]].
    - destruct H as [-> | ->]; reflexivity.
    - destruct H as [-> | ->]; cbn [user_message flowchart_request
                                     explanation_request];
        apply contains_inside. }
  unfold generate.
  destruct (negb (truthy (strip code_input))).
  { cbn [In]. intuition discriminate. }
  destruct (complete (flowchart_request model_choice code_input)) as [e|c].
  { cbn [In]. intros [H|[H|[]]]; [|discriminate H].
    injection H as <-. apply F. now left. }
  destruct (complete (explanation_request model_choice code_input)) as [e|c'].
  { cbn [In]. intros [H|[H|[H|[]]]]; [| |discriminate H].
    - injection H as <-. apply F. now left.
    - injection H as <-. apply F. now right. }
  cbn [In]. intros [H|[H|H]].
  - injection H as <-. apply F. now left.
  - injection H as <-. apply F. now right.
  - now elim (P (strip c) (strip c')).
Qed.

Lemma requests_carry_code_witness :
  let svc := canned_service (inr (py "{}")) (inr (py "text")) in
  model (@flowchart_request svc (py "some-model") (py "  x = 1  "))
  = py "some-model"
  /\ contains (py "  x = 1  ")
       (user_message (@flowchart_request svc (py "some-model") (py "  x = 1  ")))
     = true.
Proof.
  intro svc.
  destruct (@requests_carry_code ascii_runtime reference_limits svc
              (py "  x = 1  ")
              (py "some-model")
              (@flowchart_request svc (py "some-model") (py "  x = 1  ")))
    as (H1 & H2 & _).
  - left. reflexivity.
  - split; assumption.
Defined.

(** X17.  The service is called exactly when the pasted code holds a
    character that is not white space. *)
Theorem service_called_iff_nonblank {rt : Runtime} {lim : Limits}
        {svc : Service}
        (code_input model_choice : str) :
  calls_service (generate code_input model_choice) = false
  <-> Forall (fun c => isspace c = true) code_input.
Proof.
  rewrite <- strip_blank_iff. unfold generate.
  destruct (strip code_input) as [|c t]; cbn [truthy negb].
  - split; reflexivity.
  - destruct (complete (flowchart_request model_choice code_input));
      [split; discriminate|].
    destruct (complete (explanation_request model_choice code_input));
      split; discriminate.
Qed.

Lemma text_encodable s : text s = true -> encodable s = true.
Proof.
  unfold text, encodable. intro H. rewrite forallb_forall in *.
  intros c Hc. specialize (H c Hc). unfold scalar in H. unfold is_surrogate.
  destruct (N.ltb_spec c 55296); [destruct (N.leb_spec 55296 c); [lia|reflexivity]|].
  destruct (N.ltb_spec 57343 c); [|discriminate H].
  destruct (N.leb_spec c 57343); [lia|]. now rewrite andb_false_r.
Qed.

Lemma text_escapable s : text s = true -> escapable s = true.
Proof.
  unfold text, escapable. intro H. apply andb_true_intro. split.
  - rewrite forallb_forall in *. intros c Hc. specialize (H c Hc).
    unfold scalar in H. apply N.ltb_lt.
    destruct (N.ltb_spec c 55296); [lia|].
    destruct (N.ltb_spec 57343 c); [|discriminate H].
    now apply N.ltb_lt.
  - induction s as [|c t IH]; [reflexivity|].
    cbn [forallb] in H. apply andb_prop in H as [Hc Ht].
    cbn [unpaired]. rewrite (IH Ht), andb_true_r.
    replace (is_high c) with false; [reflexivity|].
    unfold scalar in Hc. unfold is_high.
    destruct (N.ltb_spec c 55296); [destruct (N.leb_spec 55296 c); [lia|reflexivity]|].
    destruct (N.ltb_spec 57343 c); [|discriminate Hc].
    destruct (N.leb_spec c 56319); [lia|]. now rewrite andb_false_r.
Qed.

Lemma text_graph_strings g :
  text_graph g = true -> encodable_graph g = true /\ escapable_graph g = true.
Proof.
  unfold text_graph, encodable_graph, escapable_graph. intro H.
  apply andb_prop in H as [Hn He]. rewrite forallb_forall in Hn, He.
  assert (N : forall n, In n (nodes g) ->
                        text (node_id n) = true /\ text (node_label n) = true).
  { intros n Hx. specialize (Hn n Hx). now apply andb_prop in Hn. }
  assert (E : forall e, In e (edges g) ->
                        text (edge_from e) = true /\ text (edge_to e) = true
                        /\ match edge_label e with
                           | Some l => text l = true
                           | None => True
                           end).
  { intros e Hx. specialize (He e Hx). apply andb_prop in He as [H1 H3].
    apply andb_prop in H1 as [H1 H2]. repeat split; trivial.
    now destruct (edge_label e). }
  split; apply andb_true_intro; split; apply forallb_forall; intros x Hx.
  - destruct (N x Hx) as [H1 H2].
    now rewrite (text_encodable _ H1), (text_encodable _ H2).
  - destruct (E x Hx) as (H1 & H2 & H3).
    rewrite (text_encodable _ H1), (text_encodable _ H2).
    destruct (edge_label x); [now apply text_encodable|reflexivity].
  - destruct (N x Hx) as [H1 H2].
    now rewrite (text_escapable _ H1), (text_escapable _ H2).
  - destruct (E x Hx) as (H1 & H2 & H3).
    rewrite (text_escapable _ H1), (text_escapable _ H2).
    destruct (edge_label x); [now apply text_escapable|reflexivity].
Qed.

(** X18.  From the button to the page on a clean reply: when both calls
    succeed, the flowchart reply, once stripped, is the serialization of a
    typed graph whose strings are Unicode text, possibly between a text
    without opening brace and a text without closing brace, the decoder may
    nest three deep and the stripped explanation can be encoded, the page
    shows the drawing of that graph, the stripped explanation and the graph
    as raw JSON, and nothing else. *)
Theorem clean_reply_draws {rt : Runtime} {lim : Limits} {svc : Service}
        (code_input model_choice content content' pre post : str)
        (o : dump_options) (g : FlowGraph) :
  truthy (strip code_input) = true ->
  complete (flowchart_request model_choice code_input) = inr content ->
  complete (explanation_request model_choice code_input) = inr content' ->
  strip content = pre ++ json_dumps_with o (graph_json g) ++ post ->
  ~ In lbrace pre -> ~ In rbrace post ->
  options_ok o = true ->
  3 <= max_depth ->
  text_graph g = true ->
  encodable (strip content') = true ->
  generate code_input model_choice
  = [Completion (flowchart_request model_choice code_input);
     Completion (explanation_request model_choice code_input);
     StGraphvizChart (diagram_of g); StMarkdown (py "---");
     StSubheader (py "Code Explanation"); StWrite (strip content');
     StRawJson (graph_json g)].
Proof.
  intros Hc H1 H2 Hs Hl Hr Ho Hd Hg Hx.
  apply text_graph_strings in Hg as [Hg1 Hg2].
  assert (E : extractGraph (strip content) = Graph (graph_json g)).
  { rewrite Hs. unfold graph_json.
    unfold extractGraph. rewrite wrapped_object_decoded; trivial.
    - now apply (@graph_json_printable (ensure_ascii o) g).
    - pose proof (graph_json_nesting g) as N. unfold graph_json in N. lia. }
  unfold generate. rewrite Hc. cbn [negb]. rewrite H1, H2.
  unfold present. now rewrite E, render_typed, diagram_encodable, Hg1, Hx.
Qed.

Lemma clean_reply_draws_witness :
  let g := {| nodes := [ {| node_id := py "A"; node_label := py "Start" |} ];
              edges := [] |} in
  let svc := canned_service
               (inr (py "  ```json " ++ json_dumps (graph_json g) ++ py " ```  "))
               (inr (py " It starts. ")) in
  @generate ascii_runtime reference_limits svc (py "pass") (py "some-model")
  = [Completion (flowchart_request (py "some-model") (py "pass"));
     Completion (explanation_request (py "some-model") (py "pass"));
     StGraphvizChart (@diagram_of ascii_runtime g); StMarkdown (py "---");
     StSubheader (py "Code Explanation"); StWrite (py "It starts.");
     StRawJson (graph_json g)].
Proof.
  intros g svc.
  apply (@clean_reply_draws ascii_runtime reference_limits svc (py "pass")
           (py "some-model")
           (py "  ```json " ++ json_dumps (graph_json g) ++ py " ```  ")
           (py " It starts. ") (py "```json ") (py " ```")
           default_options g); try reflexivity;
    vm_compute; try lia; intuition discriminate.
Defined.

(** ** The list of models (lines 57-90) *)

Lemma collect_truth (items : list pyobj) :
  Forall (fun x => truth x = true) (collect items).
Proof.
  unfold collect. induction items as [|m l IH]; cbn [flat_map]; [constructor|].
  destruct (truth (model_id m)) eqn:E; cbn [app]; [constructor|]; trivial.
Qed.

Lemma collect_length (items : list pyobj) :
  length (collect items) <= length items.
Proof.
  unfold collect. induction items as [|m l IH]; cbn [flat_map]; [lia|].
  destruct (truth (model_id m)); cbn [app length]; lia.
Qed.

Lemma discover_found (response : exn + pyobj) :
  Forall (fun x => truth x = true) (fst (discover response))
  /\ (forall e, snd (discover response) = Some e -> fst (discover response) = []).
Proof.
  unfold discover. destruct response as [e|resp]; cbn [fst snd].
  - split; [constructor|reflexivity].
  - destruct (truth (data_of resp)); [|split; [constructor|discriminate]].
    destruct (items_of (data_of resp)) as [e|items]; cbn [fst snd].
    + split; [constructor|reflexivity].
    + split; [apply collect_truth|discriminate].
Qed.

(** X19.  The select box always has something to offer: the list of models
    is never empty and every entry is true in a condition; it is the list
    found when one was found and the three defaults otherwise.  A failure of
    the listing, or an answer whose data is true in a condition and cannot
    be iterated, gives the warning and the defaults; an answer whose data is
    false in a condition gives the defaults and no warning. *)
Theorem models_never_empty (response : exn + pyobj) :
  available_models response <> []
  /\ Forall (fun x => truth x = true) (available_models response)
  /\ (fst (discover response) <> [] ->
      available_models response = fst (discover response))
  /\ (fst (discover response) = [] ->
      available_models response = default_models)
  /\ (forall e, snd (discover response) = Some e ->
                available_models response = default_models)
  /\ (forall e, response = inl e -> snd (discover response) = Some e)
  /\ (forall resp e,
         response = inr resp ->
         truth (data_of resp) = true ->
         items_of (data_of resp) = inl e ->
         snd (discover response) = Some e
         /\ available_models response = default_models)
  /\ (forall resp,
         response = inr resp ->
         truth (data_of resp) = false ->
         snd (discover response) = None
         /\ available_models response = default_models).
Proof.
  destruct (discover_found response) as [T W].
  assert (A : forall e, snd (discover response) = Some e ->
                        available_models response = default_models).
  { intros e He. unfold available_models. now rewrite (W e He). }
  split; [|split; [|split; [|split; [|split; [exact A|split; [|split]]]]]].
  - unfold available_models.
    destruct (fst (discover response)); discriminate.
  - unfold available_models.
    destruct (fst (discover response)); [repeat constructor|exact T].
  - unfold available_models.
    destruct (fst (discover response)); [congruence|reflexivity].
  - unfold available_models. now intros ->.
  - now intros e ->.
  - intros resp e -> Ht Hi.
    assert (S : snd (discover (inr resp)) = Some e).
    { unfold discover. now rewrite Ht, Hi. }
    split; [exact S|now apply (A e)].
  - intros resp -> Ht. unfold available_models, discover. now rewrite Ht.
Qed.

Lemma models_never_empty_witness :
  available_models (inl (ServiceError (py "401"))) = default_models
  /\ snd (discover (inr (ORecord [(py "data", OInt 5)]))) = Some TypeError
  /\ available_models (inr (ORecord [(py "data", OInt 5)])) = default_models.
Proof.
  split.
  - apply (proj1 (proj2 (proj2 (proj2 (proj2
             (models_never_empty (inl (ServiceError (py "401"))))))))
             (ServiceError (py "401"))).
    reflexivity.
  - apply (proj1 (proj2 (proj2 (proj2 (proj2 (proj2 (proj2
             (models_never_empty (inr (ORecord [(py "data", OInt 5)])))))))))
             (ORecord [(py "data", OInt 5)]) TypeError); reflexivity.
Defined.

(** X20.  The three shapes of answer the script supports give the same
    models: a list of entries, a dict with the entries under [data] and an
    object with the entries in its [data] attribute all yield the
    identifiers of the entries, in order, at most one per entry, and no
    warning. *)
Theorem answer_shapes_agree (items : list pyobj) :
  discover (inr (OList items)) = (collect items, None)
  /\ (forall members,
         lookup (py "data") members = Some (OList items) ->
         discover (inr (ODict members)) = (collect items, None)
         /\ discover (inr (ORecord members)) = (collect items, None))
  /\ length (collect items) <= length items.
Proof.
  split; [|split; [|apply collect_length]].
  - destruct items; reflexivity.
  - intros members H. unfold discover, data_of, getattr, dict_lookup.
    rewrite H. destruct items; split; reflexivity.
Qed.

Lemma answer_shapes_agree_witness :
  let entries := [ORecord [(py "id", OStr (py "a/b:free"))];
                  ODict [(py "model", OStr (py "c/d"))];
                  ODict [(py "id", OStr []); (py "name", OStr (py "x"))]] in
  discover (inr (ORecord [(py "object", OStr (py "list"));
                          (py "data", OList entries)]))
  = ([OStr (py "a/b:free"); OStr (py "c/d")], None).
Proof.
  intro entries.
  apply (proj1 (proj2 (answer_shapes_agree entries))
           [(py "object", OStr (py "list")); (py "data", OList entries)]).
  reflexivity.
Defined.

(** ** Two objects in one reply (lines 207-222) *)

Lemma skip_ws_keeps (s : str) (c : char) :
  In c s -> is_ws c = false -> skip_ws s <> [].
Proof.
  induction s as [|x t IH]; [contradiction|]. intros [->|H] Hc; simpl.
  - now rewrite Hc.
  - destruct (is_ws x); [now apply IH|discriminate].
Qed.

(** X4.  Slicing from the first opening to the last closing brace cannot
    separate two objects: a reply that holds two serialized dicts one after
    the other is never recovered, even when each of them is a valid graph;
    the decoder reads the first, finds text after it and raises
    [JSONDecodeError], and extraction fails with MalformedOutput.  The first
    dict is one the round trip is proved for: without numbers, with
    distinct keys, nested no deeper than the decoder may recurse and, when
    the encoder escapes everything outside ASCII, without a high surrogate
    directly before a low one in a string; the second is any dict. *)
Theorem two_objects_not_recovered {lim : Limits} (o : dump_options)
        (d1 d2 : list (str * JSON)) (pre mid post : str) :
  options_ok o = true ->
  printable (ensure_ascii o) (JObject d1) = true ->
  nesting (JObject d1) <= max_depth ->
  ~ In lbrace pre -> ~ In rbrace post ->
  let raw := pre ++ json_dumps_with o (JObject d1) ++ mid
                 ++ json_dumps_with o (JObject d2) ++ post in
  json_string raw
  = json_dumps_with o (JObject d1) ++ mid ++ json_dumps_with o (JObject d2)
  /\ json_loads (json_string raw) = inl JSONDecodeError
  /\ extractGraph raw = MalformedOutput raw.
Proof.
  intros Ho Hp Hd Hl Hr raw.
  assert (S2 : exists x2, json_dumps_with o (JObject d2) = lbrace :: x2 ++ [rbrace])
    by (cbn [json_dumps_with]; eexists; reflexivity).
  assert (S1 : exists x1, json_dumps_with o (JObject d1) = lbrace :: x1 ++ [rbrace])
    by (cbn [json_dumps_with]; eexists; reflexivity).
  destruct S1 as [x1 E1]. destruct S2 as [x2 E2].
  assert (J : json_string raw
              = json_dumps_with o (JObject d1) ++ mid
                ++ json_dumps_with o (JObject d2)).
  { unfold raw. rewrite E1, E2.
    replace (pre ++ (lbrace :: x1 ++ [rbrace]) ++ mid
                 ++ (lbrace :: x2 ++ [rbrace]) ++ post)
      with (pre ++ lbrace :: (x1 ++ [rbrace] ++ mid ++ lbrace :: x2)
                ++ rbrace :: post)
      by (cbn [app]; repeat (rewrite <- ?app_assoc; cbn [app]); reflexivity).
    rewrite json_string_between by assumption.
    cbn [app]. repeat (rewrite <- ?app_assoc; cbn [app]). reflexivity. }
  split; [exact J|].
  assert (L : json_loads (json_string raw) = inl JSONDecodeError).
  { rewrite J. unfold json_loads.
    remember (json_dumps_with o (JObject d1)) as t1 eqn:T1.
    remember (json_dumps_with o (JObject d2)) as t2 eqn:T2.
    destruct (startswith [65279%N] (t1 ++ mid ++ t2)); [reflexivity|].
    assert (P : plain_head (t1 ++ mid ++ t2)).
    { rewrite E1. repeat split. }
    rewrite (skip_ws_head _ P).
    pose proof (@scan_once_dumps max_digits o Ho max_depth (JObject d1)
                  (mid ++ t2) Hd Hp) as R.
    rewrite <- T1 in R. rewrite R.
    assert (K : skip_ws (mid ++ t2) <> []).
    { apply skip_ws_keeps with (c := lbrace); [|reflexivity].
      rewrite E2. apply in_or_app. right. now left. }
    destruct (skip_ws (mid ++ t2)); [congruence|reflexivity]. }
  split; [exact L|]. unfold extractGraph. now rewrite L.
Qed.

Lemma two_objects_not_recovered_witness :
  let d := [(py "nodes", JArray []); (py "edges", JArray [])] in
  let raw := py "First: " ++ json_dumps (JObject d) ++ py " or: "
                ++ json_dumps (JObject d) ++ py " done" in
  @extractGraph reference_limits raw = MalformedOutput raw.
Proof.
  intros d raw.
  apply (@two_objects_not_recovered reference_limits default_options d d
           (py "First: ") (py " or: ") (py " done")); try reflexivity;
    vm_compute; try lia; intuition discriminate.
Defined.

(** ** Runs of the properties above *)

Lemma render_success_shape_witness :
  @render ascii_runtime
    (JObject [(py "nodes", JArray [JObject [(py "id", JInt 1);
                                            (py "label", JString (py "End"))]]);
              (py "edges", JObject [])])
  = inr (extend empty_digraph
           [NodeStmt (py "N_1") (py "End") (py "oval") (py "filled")
                     purple (py "white") (py "End")]).
Proof.
  apply (proj2 (@render_success_shape ascii_runtime _ _)).
  exists [(py "nodes", JArray [JObject [(py "id", JInt 1);
                                        (py "label", JString (py "End"))]]);
          (py "edges", JObject [])],
         (JArray [JObject [(py "id", JInt 1); (py "label", JString (py "End"))]]),
         (JObject []),
         [JObject [(py "id", JInt 1); (py "label", JString (py "End"))]],
         [],
         [NodeStmt (py "N_1") (py "End") (py "oval") (py "filled")
                   purple (py "white") (py "End")],
         [].
  repeat split; try reflexivity; [|constructor].
  constructor; [|constructor].
  exists [(py "id", JInt 1); (py "label", JString (py "End"))],
         (JInt 1), (py "End").
  repeat split; reflexivity.
Defined.

Lemma prefixed_names_distinct_witness :
  let g := {| nodes := [ {| node_id := py "if"; node_label := py "Check" |};
                         {| node_id := py "end"; node_label := py "End" |} ];
              edges := [] |} in
  exists dot,
    @render ascii_runtime (graph_json g) = inr dot
    /\ node_names (body dot) = map (fun n => py "N_" ++ node_id n) (nodes g)
    /\ (NoDup (node_names (body dot)) <-> NoDup (map node_id (nodes g))).
Proof.
  intro g. apply (@prefixed_names_distinct ascii_runtime g).
Defined.

Lemma palette_witness :
  fontcolor (@style_of_label ascii_runtime (py "Assign total")) = py "black".
Proof.
  apply (proj2 (proj1 (@palette ascii_runtime (py "Assign total")))).
  right. reflexivity.
Defined.

Lemma service_called_iff_nonblank_witness :
  calls_service
    (@generate ascii_runtime reference_limits
               (canned_service (inr (py "{}")) (inr (py "text")))
               [32%N; 10%N; 9%N; 160%N] (py "some-model"))
  = false.
Proof.
  apply (proj2 (@service_called_iff_nonblank ascii_runtime reference_limits
                  (canned_service (inr (py "{}")) (inr (py "text")))
                  [32%N; 10%N; 9%N; 160%N] (py "some-model"))).
  repeat constructor.
Defined.
